(** * PReMiuM: the proposal composition and lifecycle of [profRegr]

    A shallow embedding of [profRegr] (src/PReMiuM/src/PReMiuM.cpp), the
    entry point that configures the MCMC sampler object, registers the
    proposals selected by the run options and the shape of the imported
    data, and drives the output-file / chain / run lifecycle. *)

From Stdlib Require Import ZArith List String Bool Lia PrimFloat.
Import ListNotations.

Local Open Scope string_scope.
Local Open Scope Z_scope.
Local Open Scope list_scope.

(** ** Machine data *)

(** [unsigned int] values are integers in [[0, 2^32)]; arithmetic on them
    wraps around. *)
Module UInt.
Definition modulus : Z := 2 ^ 32.
Definition wrap (z : Z) : Z := z mod modulus.
Definition inRange (z : Z) : Prop := 0 <= z < modulus.
Definition add (a b : Z) : Z := wrap (a + b).
Definition div (a b : Z) : Z := wrap (a / b).
End UInt.

(** ** The options, the data and the proposal descriptors *)

(** The update functions whose addresses [profRegr] hands to [addProposal]. *)
Inductive updateFn : Type :=
| gibbsForVActive
| updateForPhiActive
| gibbsForMuActive
| gibbsForTauActive
| gibbsForGammaActive
| metropolisHastingsForThetaActive
| metropolisHastingsForLabels
| gibbsForU
| metropolisHastingsForAlpha
| gibbsForVInActive
| gibbsForPhiInActive
| gibbsForMuInActive
| gibbsForTauInActive
| gibbsForGammaInActive
| gibbsForThetaInActive
| metropolisHastingsForBeta
| metropolisHastingsForLambda
| gibbsForTauEpsilon
| metropolisHastingsForRhoOmega
| gibbsForSigmaSqY
| gibbsForZ.

(** [pReMiuMOptions]: the fields that [profRegr] reads.  The counts are
    [unsigned int], [fixedAlpha] is a [double]. *)
Record pReMiuMOptions : Type := mkOptions {
  inFileName : string;
  outFileStem : string;
  predictFileName : string;
  nSweeps : Z;
  nBurn : Z;
  nFilter : Z;
  nProgress : Z;
  reportBurnIn : bool;
  seed : Z;
  outcomeType : string;
  covariateType : string;
  varSelectType : string;
  samplerType : string;
  fixedAlpha : float;
  includeResponse : bool;
  responseExtraVar : bool
}.

(** [pReMiuMData]: the three counts read by [profRegr], next to the
    observations themselves. *)
Record pReMiuMData : Type := mkData {
  nCovariates : Z;
  nFixedEffects : Z;
  nCategoriesY : Z;
  covariateData : list (list Z);
  outcomeData : list Z
}.

(** The five arguments of one [addProposal] call. *)
Record mcmcProposal : Type := mkProposal {
  name : string;
  weight : float;
  repeatCount : Z;
  firstActiveSweep : Z;
  updateCallable : updateFn
}.

(** ** The proposals section of [profRegr] (lines 110-246) *)

Definition addProposal (propName : string) (w : float) (rep first : Z)
    (fn : updateFn) : list mcmcProposal :=
  [mkProposal propName w rep first fn].

(** [firstSweep=1+(unsigned int)(options.nBurn()/10);] *)
Definition firstSweepOf (options : pReMiuMOptions) : Z :=
  UInt.add 1 (UInt.div (nBurn options) 10).

(** [s.compare(t)==0] *)
Definition compare0 (s t : string) : bool := String.eqb s t.

Definition profRegr_proposals (options : pReMiuMOptions) (dataset : pReMiuMData)
    : list mcmcProposal :=
  addProposal "gibbsForVActive" 1 1 1 gibbsForVActive
  ++ (if compare0 (covariateType options) "Discrete" then
        addProposal "updateForPhiActive" 1 1 1 updateForPhiActive
      else if compare0 (covariateType options) "Normal" then
        addProposal "gibbsForMuActive" 1 1 1 gibbsForMuActive
        ++ addProposal "gibbsForTauActive" 1 1 1 gibbsForTauActive
      else if compare0 (covariateType options) "Mixed" then
        addProposal "updateForPhiActive" 1 1 1 updateForPhiActive
        ++ addProposal "gibbsForMuActive" 1 1 1 gibbsForMuActive
        ++ addProposal "gibbsForTauActive" 1 1 1 gibbsForTauActive
      else [])
  ++ (if negb (compare0 (varSelectType options) "None") then
        let firstSweep := firstSweepOf options in
        if negb (compare0 (varSelectType options) "Continuous") then
          addProposal "gibbsForGammaActive" 1 1 firstSweep gibbsForGammaActive
        else []
      else [])
  ++ (if includeResponse options then
        addProposal "metropolisHastingsForThetaActive" 1 1 1
          metropolisHastingsForThetaActive
      else [])
  ++ addProposal "metropolisHastingsForLabels" 1 1 1 metropolisHastingsForLabels
  ++ (if negb (compare0 (samplerType options) "Truncated") then
        addProposal "gibbsForU" 1 1 1 gibbsForU
      else [])
  ++ (if (fixedAlpha options <? 0)%float then
        addProposal "metropolisHastingsForAlpha" 1 1 1 metropolisHastingsForAlpha
      else [])
  ++ addProposal "gibbsForVInActive" 1 1 1 gibbsForVInActive
  ++ (if compare0 (covariateType options) "Discrete" then
        addProposal "gibbsForPhiInActive" 1 1 1 gibbsForPhiInActive
      else if compare0 (covariateType options) "Normal" then
        addProposal "gibbsForMuInActive" 1 1 1 gibbsForMuInActive
        ++ addProposal "gibbsForTauInActive" 1 1 1 gibbsForTauInActive
      else if compare0 (covariateType options) "Mixed" then
        addProposal "gibbsForPhiInActive" 1 1 1 gibbsForPhiInActive
        ++ addProposal "gibbsForMuInActive" 1 1 1 gibbsForMuInActive
        ++ addProposal "gibbsForTauInActive" 1 1 1 gibbsForTauInActive
      else [])
  ++ (if negb (compare0 (varSelectType options) "None") then
        let firstSweep := firstSweepOf options in
        if negb (compare0 (varSelectType options) "Continuous") then
          addProposal "gibbsForGammaInActive" 1 1 firstSweep gibbsForGammaInActive
        else []
      else [])
  ++ (if includeResponse options then
        addProposal "gibbsForThetaInActive" 1 1 1 gibbsForThetaInActive
      else [])
  ++ (if includeResponse options then
        (if 0 <? nFixedEffects dataset then
           addProposal "metropolisHastingsForBeta" 1 1 1 metropolisHastingsForBeta
         else [])
        ++ (if responseExtraVar options then
              addProposal "metropolisHastingsForLambda" 1 1 1
                metropolisHastingsForLambda
              ++ addProposal "gibbsForTauEpsilon" 1 1 1 gibbsForTauEpsilon
            else [])
      else [])
  ++ (if negb (compare0 (varSelectType options) "None") then
        let firstSweep := firstSweepOf options in
        addProposal "metropolisHastingsForRhoOmega" 1 1 firstSweep
          metropolisHastingsForRhoOmega
      else [])
  ++ (if compare0 (outcomeType options) "Normal" then
        addProposal "gibbsForSigmaSqY" 1 1 1 gibbsForSigmaSqY
      else [])
  ++ addProposal "gibbsForZ" 1 1 1 gibbsForZ.

Definition names (l : list mcmcProposal) : list string := map name l.

(** The proposal names that belong to the covariate block (active and
    inactive components). *)
Definition covariateBlockNames : list string :=
  [ "updateForPhiActive"; "gibbsForMuActive"; "gibbsForTauActive";
    "gibbsForPhiInActive"; "gibbsForMuInActive"; "gibbsForTauInActive" ].

(** Boolean membership of a proposal name, for computing with registries. *)
Definition hasName (n : string) (l : list mcmcProposal) : bool :=
  existsb (fun p => String.eqb (name p) n) l.

(** Boolean check that no string occurs twice. *)
Fixpoint distinctb (l : list string) : bool :=
  match l with
  | [] => true
  | s :: k => negb (existsb (String.eqb s) k) && distinctb k
  end.

(** *** The same composition as a decision table

    Each row pairs the condition under which a proposal is registered with
    its descriptor; the rows are in registration order. *)
Definition ruleTable (options : pReMiuMOptions) (dataset : pReMiuMData)
    : list (bool * mcmcProposal) :=
  let isDiscrete := compare0 (covariateType options) "Discrete" in
  let isNormal := compare0 (covariateType options) "Normal" in
  let isMixed := compare0 (covariateType options) "Mixed" in
  let hasPhi := isDiscrete || (negb isNormal && isMixed) in
  let hasMuTau := negb isDiscrete && (isNormal || isMixed) in
  let varSelect := negb (compare0 (varSelectType options) "None") in
  let hasGamma :=
    varSelect && negb (compare0 (varSelectType options) "Continuous") in
  let response := includeResponse options in
  let firstSweep := firstSweepOf options in
  [ (true, mkProposal "gibbsForVActive" 1 1 1 gibbsForVActive);
    (hasPhi, mkProposal "updateForPhiActive" 1 1 1 updateForPhiActive);
    (hasMuTau, mkProposal "gibbsForMuActive" 1 1 1 gibbsForMuActive);
    (hasMuTau, mkProposal "gibbsForTauActive" 1 1 1 gibbsForTauActive);
    (hasGamma, mkProposal "gibbsForGammaActive" 1 1 firstSweep gibbsForGammaActive);
    (response, mkProposal "metropolisHastingsForThetaActive" 1 1 1
                 metropolisHastingsForThetaActive);
    (true, mkProposal "metropolisHastingsForLabels" 1 1 1
             metropolisHastingsForLabels);
    (negb (compare0 (samplerType options) "Truncated"),
       mkProposal "gibbsForU" 1 1 1 gibbsForU);
    ((fixedAlpha options <? 0)%float,
       mkProposal "metropolisHastingsForAlpha" 1 1 1 metropolisHastingsForAlpha);
    (true, mkProposal "gibbsForVInActive" 1 1 1 gibbsForVInActive);
    (hasPhi, mkProposal "gibbsForPhiInActive" 1 1 1 gibbsForPhiInActive);
    (hasMuTau, mkProposal "gibbsForMuInActive" 1 1 1 gibbsForMuInActive);
    (hasMuTau, mkProposal "gibbsForTauInActive" 1 1 1 gibbsForTauInActive);
    (hasGamma, mkProposal "gibbsForGammaInActive" 1 1 firstSweep
                 gibbsForGammaInActive);
    (response, mkProposal "gibbsForThetaInActive" 1 1 1 gibbsForThetaInActive);
    (response && (0 <? nFixedEffects dataset),
       mkProposal "metropolisHastingsForBeta" 1 1 1 metropolisHastingsForBeta);
    (response && responseExtraVar options,
       mkProposal "metropolisHastingsForLambda" 1 1 1 metropolisHastingsForLambda);
    (response && responseExtraVar options,
       mkProposal "gibbsForTauEpsilon" 1 1 1 gibbsForTauEpsilon);
    (varSelect, mkProposal "metropolisHastingsForRhoOmega" 1 1 firstSweep
                  metropolisHastingsForRhoOmega);
    (compare0 (outcomeType options) "Normal",
       mkProposal "gibbsForSigmaSqY" 1 1 1 gibbsForSigmaSqY);
    (true, mkProposal "gibbsForZ" 1 1 1 gibbsForZ) ].

(** The descriptors of the rows whose condition holds. *)
Fixpoint select (table : list (bool * mcmcProposal)) : list mcmcProposal :=
  match table with
  | [] => []
  | (b, p) :: rest => if b then p :: select rest else select rest
  end.

(** The variable-selection proposals, whose first sweep is deferred. *)
Definition deferredNames : list string :=
  [ "gibbsForGammaActive"; "gibbsForGammaInActive";
    "metropolisHastingsForRhoOmega" ].

Definition deferred (n : string) : bool := existsb (String.eqb n) deferredNames.

(** ** The whole of [profRegr] as the calls it makes on the sampler *)

Inductive importFn : Type := importPReMiuMData.
Inductive initFn : Type := initialisePReMiuM.
Inductive logPostFn : Type := pReMiuMLogPost.
Inductive missingDataFn : Type := updateMissingPReMiuMData.
Inductive outputFn : Type := writePReMiuMOutput.

(** One constructor per member function of [pReMiuMSampler] (and of its
    dataset) that [profRegr] calls, with the arguments passed. *)
Inductive samplerCall : Type :=
| SetOptions (o : pReMiuMOptions)
| SetModel (imp : importFn) (init : initFn) (logPost : logPostFn)
    (hasMissingData : bool)
| SetUpdateMissingDataFn (f : missingDataFn)
| SetUserOutputFn (f : outputFn)
| SeedGenerator (s : Z)
| SetNSweeps (n : Z)
| SetNBurn (n : Z)
| SetNFilter (n : Z)
| SetNProgress (n : Z)
| SetReportBurnIn (b : bool)
| SetOutcomeType (s : string)
| SetCovariateType (s : string)
| ImportData (inFile predictFile : string)
| SetProposalParams (sweeps covs fixedEffects categoriesY : Z)
| AddProposal (p : mcmcProposal)
| InitialiseOutputFiles (stem : string)
| WriteLogFile
| InitialiseChain
| ReadHyperParams
| ReadWorkNClusInit
| ReadMaxNClusters
| Run
| AppendToLogFile (timeInSecs : Z)
| CloseOutputFiles.

(** What [profRegr] does not decide itself: whether a call on the sampler
    throws (given the calls completed before it), the dataset that
    [importData] leaves in the model, and the two readings of the clock. *)
Record environment : Type := mkEnv {
  throws : list samplerCall -> samplerCall -> bool;
  imported : pReMiuMData;
  beginTime : Z;
  currTime : Z
}.

(** Lines 74-94: options, model binding, output function, seed, counts. *)
Definition profRegr_setup (options : pReMiuMOptions) : list samplerCall :=
  [ SetOptions options;
    SetModel importPReMiuMData initialisePReMiuM pReMiuMLogPost true;
    SetUpdateMissingDataFn updateMissingPReMiuMData;
    SetUserOutputFn writePReMiuMOutput;
    SeedGenerator (seed options);
    SetNSweeps (nSweeps options);
    SetNBurn (nBurn options);
    SetNFilter (nFilter options);
    SetNProgress (nProgress options);
    SetReportBurnIn (reportBurnIn options) ].

(** Lines 97-99: read in the data. *)
Definition profRegr_readData (options : pReMiuMOptions) : list samplerCall :=
  [ SetOutcomeType (outcomeType options);
    SetCovariateType (covariateType options);
    ImportData (inFileName options) (predictFileName options) ].

(** Lines 105-246: the proposal parameters, then the proposals. *)
Definition profRegr_addProposals (options : pReMiuMOptions)
    (dataset : pReMiuMData) : list samplerCall :=
  SetProposalParams (nSweeps options) (nCovariates dataset)
    (nFixedEffects dataset) (nCategoriesY dataset)
  :: map AddProposal (profRegr_proposals options dataset).

(** Lines 250-261: output files, log file, chain, and the three values read
    from the initial state for the final log entry. *)
Definition profRegr_initialise (options : pReMiuMOptions) : list samplerCall :=
  [ InitialiseOutputFiles (outFileStem options); WriteLogFile; InitialiseChain;
    ReadHyperParams; ReadWorkNClusInit; ReadMaxNClusters ].

(** Everything that precedes [pReMiuMSampler.run()]. *)
Definition profRegr_beforeRun (env : environment) (options : pReMiuMOptions)
    : list samplerCall :=
  profRegr_setup options
  ++ profRegr_readData options
  ++ profRegr_addProposals options (imported env)
  ++ profRegr_initialise options.

(** Lines 264-274: run, final log entry, clean up. *)
Definition profRegr_calls (env : environment) (options : pReMiuMOptions)
    : list samplerCall :=
  profRegr_beforeRun env options
  ++ [ Run; AppendToLogFile (currTime env - beginTime env); CloseOutputFiles ].

(** How a run of straight-line calls ends: [profRegr] has no handler, so
    the first call that throws ends it and the exception leaves the
    function.  Only the calls on the sampler are represented; the
    statements between them (the copy of the dataset, the construction of
    the proposal parameters, [storeLogFileData]) are taken to complete. *)
Inductive outcome : Type :=
| Returned
| Propagated (c : samplerCall).

Fixpoint exec (thr : list samplerCall -> samplerCall -> bool)
    (done todo : list samplerCall) : list samplerCall * outcome :=
  match todo with
  | [] => (done, Returned)
  | c :: rest =>
      if thr done c then (done ++ [c], Propagated c)
      else exec thr (done ++ [c]) rest
  end.

(** The calls made by one invocation of [profRegr], and how it ends. *)
Definition profRegr (env : environment) (options : pReMiuMOptions)
    : list samplerCall * outcome :=
  exec (throws env) [] (profRegr_calls env options).

Definition isAddProposal (c : samplerCall) : option mcmcProposal :=
  match c with AddProposal p => Some p | _ => None end.

Fixpoint registered (calls : list samplerCall) : list mcmcProposal :=
  match calls with
  | [] => []
  | c :: rest =>
      match isAddProposal c with
      | Some p => p :: registered rest
      | None => registered rest
      end
  end.

Definition isInitialise (c : samplerCall) : bool :=
  match c with InitialiseOutputFiles _ => true | _ => false end.

Definition isClose (c : samplerCall) : bool :=
  match c with CloseOutputFiles => true | _ => false end.

Definition isRun (c : samplerCall) : bool :=
  match c with Run => true | _ => false end.

(** How many times [closeOutputFiles] was called. *)
Definition closes (calls : list samplerCall) : nat :=
  List.length (filter isClose calls).

(** An environment in which nothing throws, and one in which [run] does. *)
Definition neverThrows : list samplerCall -> samplerCall -> bool :=
  fun _ _ => false.

Definition runThrows : list samplerCall -> samplerCall -> bool :=
  fun _ c => isRun c.

(** ** The sampler class (MCMC/sampler.h) *)

(** Modelled from the spec: [addProposal] of the sampler class
    (MCMC/sampler.h is not among the sources).  It "appends to the
    registry; fails if name is not unique or firstActiveSweep < 1". *)
Definition mcmcSampler_addProposal (registry : list mcmcProposal)
    (p : mcmcProposal) : option (list mcmcProposal) :=
  if hasName (name p) registry || (firstActiveSweep p <? 1) then None
  else Some (registry ++ [p]).

(** Registering a sequence of descriptors, stopping at the first failure. *)
Fixpoint mcmcSampler_addAll (registry todo : list mcmcProposal)
    : option (list mcmcProposal) :=
  match todo with
  | [] => Some registry
  | p :: rest =>
      match mcmcSampler_addProposal registry p with
      | Some registry' => mcmcSampler_addAll registry' rest
      | None => None
      end
  end.

(** Modelled from the spec: the part of the sampler object that the sweep
    loop reads (MCMC/sampler.h is not among the sources). *)
Record mcmcSampler : Type := mkSampler {
  hasMissingData : bool;
  updateMissingData : option missingDataFn;
  proposals : list mcmcProposal;
  samplerNSweeps : Z;
  samplerNBurn : Z;
  samplerNFilter : Z;
  samplerNProgress : Z;
  samplerReportBurnIn : bool
}.

Definition newSampler : mcmcSampler :=
  mkSampler false None [] 0 0 1 1 false.

(** Modelled from the spec: the effect of each call on the sampler object
    (the setters store their argument, [addProposal] appends). *)
Definition applyCall (s : mcmcSampler) (c : samplerCall) : mcmcSampler :=
  match c with
  | SetModel _ _ _ b =>
      mkSampler b (updateMissingData s) (proposals s) (samplerNSweeps s)
        (samplerNBurn s) (samplerNFilter s) (samplerNProgress s)
        (samplerReportBurnIn s)
  | SetUpdateMissingDataFn f =>
      mkSampler (hasMissingData s) (Some f) (proposals s) (samplerNSweeps s)
        (samplerNBurn s) (samplerNFilter s) (samplerNProgress s)
        (samplerReportBurnIn s)
  | SetNSweeps n =>
      mkSampler (hasMissingData s) (updateMissingData s) (proposals s) n
        (samplerNBurn s) (samplerNFilter s) (samplerNProgress s)
        (samplerReportBurnIn s)
  | SetNBurn n =>
      mkSampler (hasMissingData s) (updateMissingData s) (proposals s)
        (samplerNSweeps s) n (samplerNFilter s) (samplerNProgress s)
        (samplerReportBurnIn s)
  | SetNFilter n =>
      mkSampler (hasMissingData s) (updateMissingData s) (proposals s)
        (samplerNSweeps s) (samplerNBurn s) n (samplerNProgress s)
        (samplerReportBurnIn s)
  | SetNProgress n =>
      mkSampler (hasMissingData s) (updateMissingData s) (proposals s)
        (samplerNSweeps s) (samplerNBurn s) (samplerNFilter s) n
        (samplerReportBurnIn s)
  | SetReportBurnIn b =>
      mkSampler (hasMissingData s) (updateMissingData s) (proposals s)
        (samplerNSweeps s) (samplerNBurn s) (samplerNFilter s)
        (samplerNProgress s) b
  | AddProposal p =>
      mkSampler (hasMissingData s) (updateMissingData s) (proposals s ++ [p])
        (samplerNSweeps s) (samplerNBurn s) (samplerNFilter s)
        (samplerNProgress s) (samplerReportBurnIn s)
  | _ => s
  end.

(** The sampler object on which [run()] is called. *)
Definition samplerAtRun (env : environment) (options : pReMiuMOptions)
    : mcmcSampler :=
  fold_left applyCall (profRegr_beforeRun env options) newSampler.

(** What happens during a sweep. *)
Inductive sweepEvent : Type :=
| MissingDataUpdated (f : option missingDataFn)
| Proposed (p : mcmcProposal)
| OutputWritten
| ProgressReported.

(** Modelled from the spec: one sweep of the loop of section 4.3.  The
    missing-data updater runs first if the model binding says data may be
    missing; each proposal whose first active sweep has come is invoked
    [repeatCount] times, in registry order; the state is written at the
    thinning points after burn-in (and during burn-in when [reportBurnIn]
    is set); progress is reported every [nProgress] sweeps. *)
Definition sweep (s : mcmcSampler) (sw : Z) : list sweepEvent :=
  (if hasMissingData s then [MissingDataUpdated (updateMissingData s)] else [])
  ++ flat_map (fun p =>
       if firstActiveSweep p <=? sw
       then repeat (Proposed p) (Z.to_nat (repeatCount p))
       else []) (proposals s)
  ++ (if ((samplerNBurn s <? sw) && ((sw - samplerNBurn s) mod samplerNFilter s =? 0))
         || (samplerReportBurnIn s && (sw <=? samplerNBurn s))
      then [OutputWritten] else [])
  ++ (if sw mod samplerNProgress s =? 0 then [ProgressReported] else []).

(** Modelled from the spec: [run()] performs the sweeps 1..nSweeps. *)
Definition run (s : mcmcSampler) : list (list sweepEvent) :=
  map (fun k => sweep s (Z.of_nat k)) (seq 1 (Z.to_nat (samplerNSweeps s))).

Definition isMissingDataUpdate (e : sweepEvent) : bool :=
  match e with MissingDataUpdated _ => true | _ => false end.

(** How often the missing-data updater runs in a sweep. *)
Definition missingDataUpdates (events : list sweepEvent) : nat :=
  List.length (filter isMissingDataUpdate events).

(** ** Properties under examination *)

(** No registered proposal starts after the last sweep. *)
Definition firstSweepsWithinRun (options : pReMiuMOptions)
    (dataset : pReMiuMData) : Prop :=
  Forall (fun p => firstActiveSweep p <= nSweeps options)
         (profRegr_proposals options dataset).

(** A run in which [initialiseOutputFiles] was reached calls
    [closeOutputFiles] exactly once. *)
Definition releasesOutputFiles (r : list samplerCall * outcome) : Prop :=
  existsb isInitialise (fst r) = true -> closes (fst r) = 1%nat.

(** ** Concrete inputs *)

Definition scenarioOptions : pReMiuMOptions :=
  mkOptions "input.txt" "output" "" 1000 1000 1 500 false 42
            "Normal" "Normal" "None" "Truncated" 1%float true true.

Definition scenarioData : pReMiuMData :=
  mkData 2 1 1 [[0; 1]; [1; 0]] [3; 4].

(** Binary variable selection with a burn-in of 50 sweeps. *)
Definition binaryOptions : pReMiuMOptions :=
  mkOptions "input.txt" "output" "" 1000 50 1 500 false 42
            "Bernoulli" "Discrete" "Binary" "Truncated" (-1)%float true false.

(** Continuous variable selection, same burn-in. *)
Definition continuousOptions : pReMiuMOptions :=
  mkOptions "input.txt" "output" "" 1000 50 1 500 false 42
            "Bernoulli" "Discrete" "Continuous" "Slice" 2.5%float false false.

(** A burn-in that is long compared with the number of sweeps. *)
Definition longBurnOptions : pReMiuMOptions :=
  mkOptions "input.txt" "output" "" 1000 50000 1 500 false 42
            "Bernoulli" "Discrete" "Binary" "Truncated" (-1)%float true false.

(** A covariate type that [profRegr] does not know. *)
Definition unknownCovariateOptions : pReMiuMOptions :=
  mkOptions "input.txt" "output" "" 1000 1000 1 500 false 42
            "Bernoulli" "Unrecognized" "None" "Truncated" (-1)%float true false.

(** A dataset without fixed effects, and one with the same shape as
    [scenarioData] but other observations. *)
Definition noFixedEffectsData : pReMiuMData :=
  mkData 2 0 1 [[0; 1]; [1; 0]] [1; 0].

Definition otherData : pReMiuMData :=
  mkData 2 1 1 [[5; 5]; [7; 7]; [9; 9]] [0; 0; 1].

Definition quietEnv (d : pReMiuMData) : environment :=
  mkEnv neverThrows d 1000 1060.

Definition failingRunEnv (d : pReMiuMData) : environment :=
  mkEnv runThrows d 1000 1060.

(** ** Vocabulary for the order and the extent of the registry *)

(** The identifier of each update function, as written in the source. *)
Definition fnName (fn : updateFn) : string :=
  match fn with
  | gibbsForVActive => "gibbsForVActive"
  | updateForPhiActive => "updateForPhiActive"
  | gibbsForMuActive => "gibbsForMuActive"
  | gibbsForTauActive => "gibbsForTauActive"
  | gibbsForGammaActive => "gibbsForGammaActive"
  | metropolisHastingsForThetaActive => "metropolisHastingsForThetaActive"
  | metropolisHastingsForLabels => "metropolisHastingsForLabels"
  | gibbsForU => "gibbsForU"
  | metropolisHastingsForAlpha => "metropolisHastingsForAlpha"
  | gibbsForVInActive => "gibbsForVInActive"
  | gibbsForPhiInActive => "gibbsForPhiInActive"
  | gibbsForMuInActive => "gibbsForMuInActive"
  | gibbsForTauInActive => "gibbsForTauInActive"
  | gibbsForGammaInActive => "gibbsForGammaInActive"
  | gibbsForThetaInActive => "gibbsForThetaInActive"
  | metropolisHastingsForBeta => "metropolisHastingsForBeta"
  | metropolisHastingsForLambda => "metropolisHastingsForLambda"
  | gibbsForTauEpsilon => "gibbsForTauEpsilon"
  | metropolisHastingsForRhoOmega => "metropolisHastingsForRhoOmega"
  | gibbsForSigmaSqY => "gibbsForSigmaSqY"
  | gibbsForZ => "gibbsForZ"
  end.

(** The proposal names in the order in which [profRegr] mentions them. *)
Definition canonicalOrder : list string :=
  [ "gibbsForVActive"; "updateForPhiActive"; "gibbsForMuActive";
    "gibbsForTauActive"; "gibbsForGammaActive";
    "metropolisHastingsForThetaActive"; "metropolisHastingsForLabels";
    "gibbsForU"; "metropolisHastingsForAlpha"; "gibbsForVInActive";
    "gibbsForPhiInActive"; "gibbsForMuInActive"; "gibbsForTauInActive";
    "gibbsForGammaInActive"; "gibbsForThetaInActive";
    "metropolisHastingsForBeta"; "metropolisHastingsForLambda";
    "gibbsForTauEpsilon"; "metropolisHastingsForRhoOmega";
    "gibbsForSigmaSqY"; "gibbsForZ" ].

(** [l] is obtained from [k] by dropping elements. *)
Inductive Subseq : list string -> list string -> Prop :=
| Subseq_nil : Subseq [] []
| Subseq_skip (x : string) (l k : list string) :
    Subseq l k -> Subseq l (x :: k)
| Subseq_keep (x : string) (l k : list string) :
    Subseq l k -> Subseq (x :: l) (x :: k).

(** [a] occurs in [l] and [b] occurs later. *)
Fixpoint before (a b : string) (l : list string) : Prop :=
  match l with
  | [] => False
  | x :: k => (x = a /\ In b k) \/ before a b k
  end.

Fixpoint beforeb (a b : string) (l : list string) : bool :=
  match l with
  | [] => false
  | x :: k => (String.eqb x a && existsb (String.eqb b) k) || beforeb a b k
  end.

(** Each update of the active components with its counterpart for the
    inactive ones. *)
Definition mirrorPairs : list (string * string) :=
  [ ("gibbsForVActive", "gibbsForVInActive");
    ("updateForPhiActive", "gibbsForPhiInActive");
    ("gibbsForMuActive", "gibbsForMuInActive");
    ("gibbsForTauActive", "gibbsForTauInActive");
    ("gibbsForGammaActive", "gibbsForGammaInActive");
    ("metropolisHastingsForThetaActive", "gibbsForThetaInActive") ].

(** Two option sets agree on everything the proposals section tests. *)
Definition sameComposition (o1 o2 : pReMiuMOptions) : Prop :=
  covariateType o1 = covariateType o2
  /\ varSelectType o1 = varSelectType o2
  /\ nBurn o1 = nBurn o2
  /\ includeResponse o1 = includeResponse o2
  /\ samplerType o1 = samplerType o2
  /\ (fixedAlpha o1 <? 0)%float = (fixedAlpha o2 <? 0)%float
  /\ responseExtraVar o1 = responseExtraVar o2
  /\ outcomeType o1 = outcomeType o2.

(** The options with the fewest and with the most proposals. *)
Definition minimalOptions : pReMiuMOptions :=
  mkOptions "input.txt" "output" "" 1000 1000 1 500 false 42
            "Bernoulli" "Unrecognized" "None" "Truncated" 1%float false false.

Definition maximalOptions : pReMiuMOptions :=
  mkOptions "input.txt" "output" "" 1000 1000 1 500 false 42
            "Normal" "Mixed" "Binary" "Slice" (-1)%float true true.

(** Same composition as [binaryOptions], other run settings. *)
Definition binaryOptionsOtherRun : pReMiuMOptions :=
  mkOptions "other.txt" "elsewhere" "predict.txt" 20 50 7 3 true 1234
            "Bernoulli" "Discrete" "Binary" "Truncated" (-3.5)%float true false.

(** Variable selection with a burn-in below ten sweeps. *)
Definition shortBurnOptions : pReMiuMOptions :=
  mkOptions "input.txt" "output" "" 1000 9 1 500 false 42
            "Bernoulli" "Discrete" "Binary" "Truncated" (-1)%float true false.

Definition isImportData (c : samplerCall) : bool :=
  match c with ImportData _ _ => true | _ => false end.

(** An environment in which the data cannot be imported. *)
Definition importThrows : list samplerCall -> samplerCall -> bool :=
  fun _ c => isImportData c.

Definition failingImportEnv (d : pReMiuMData) : environment :=
  mkEnv importThrows d 1000 1060.

(** How many times [initialiseOutputFiles] was called. *)
Definition opens (calls : list samplerCall) : nat :=
  List.length (filter isInitialise calls).

(** The same options with another number of sweeps. *)
Definition withNSweeps (n : Z) (o : pReMiuMOptions) : pReMiuMOptions :=
  mkOptions (inFileName o) (outFileStem o) (predictFileName o) n (nBurn o)
            (nFilter o) (nProgress o) (reportBurnIn o) (seed o)
            (outcomeType o) (covariateType o) (varSelectType o)
            (samplerType o) (fixedAlpha o) (includeResponse o)
            (responseExtraVar o).

(** ** Theorems *)

(** *** Auxiliary facts *)

Lemma hasName_In (n : string) (l : list mcmcProposal) :
  In n (names l) <-> hasName n l = true.
Proof.
  unfold names, hasName. rewrite existsb_exists, in_map_iff.
  split; intros [p [H1 H2]]; exists p.
  - split; [exact H2 | apply String.eqb_eq; exact H1].
  - split; [apply String.eqb_eq; exact H2 | exact H1].
Qed.

Lemma hasName_not_In (n : string) (l : list mcmcProposal) :
  ~ In n (names l) <-> hasName n l = false.
Proof.
  rewrite hasName_In. destruct (hasName n l); split; intros H;
    try reflexivity; try discriminate; try (exfalso; apply H; reflexivity).
Qed.

Lemma distinctb_NoDup (l : list string) : distinctb l = true -> NoDup l.
Proof.
  induction l as [|s k IH]; intros H; [constructor|].
  cbn in H. apply andb_true_iff in H. destruct H as [Hs Hk].
  constructor; [|apply IH; exact Hk].
  intros Hin. apply negb_true_iff in Hs.
  assert (existsb (String.eqb s) k = true) as E.
  { apply existsb_exists. exists s. split; [exact Hin | apply String.eqb_refl]. }
  rewrite E in Hs. discriminate Hs.
Qed.

Lemma compare0_false (s t : string) : compare0 s t = false <-> s <> t.
Proof. apply String.eqb_neq. Qed.

(** For an [unsigned int] burn-in, [firstSweep] is computed without
    wrapping around. *)
Lemma firstSweepOf_value (options : pReMiuMOptions) :
  UInt.inRange (nBurn options) ->
  firstSweepOf options = 1 + nBurn options / 10.
Proof.
  unfold UInt.inRange, firstSweepOf, UInt.add, UInt.div, UInt.wrap, UInt.modulus.
  intros H.
  assert (0 <= nBurn options / 10 <= nBurn options) as Hq.
  { split; [apply Z.div_pos; lia|].
    apply Z.div_le_upper_bound; lia. }
  assert (nBurn options / 10 < 429496730) as Hq'.
  { apply Z.div_lt_upper_bound; lia. }
  rewrite (Z.mod_small (nBurn options / 10)) by lia.
  apply Z.mod_small. lia.
Qed.

(** Case analysis on every condition that [profRegr] tests. *)
Ltac split_options :=
  repeat match goal with
  | |- context [if ?b then _ else _] => destruct b eqn:?
  end.

(** Every registered descriptor has weight 1.0 and repeat count 1; its
    first sweep is 1, unless it is one of the variable-selection proposals,
    which exist only when [varSelectType] is not "None" and start at
    [firstSweepOf]. *)
Lemma registered_shape (options : pReMiuMOptions) (dataset : pReMiuMData) :
  Forall (fun p =>
    weight p = 1%float /\ repeatCount p = 1 /\
    ((firstActiveSweep p = 1 /\ deferred (name p) = false) \/
     (firstActiveSweep p = firstSweepOf options /\ deferred (name p) = true /\
      negb (compare0 (varSelectType options) "None") = true)))
    (profRegr_proposals options dataset).
Proof.
  unfold profRegr_proposals.
  repeat (apply Forall_app; split);
    split_options; cbn [app addProposal];
    repeat first
      [ apply Forall_nil
      | apply Forall_cons;
        [ split; [reflexivity|]; split; [reflexivity|];
          first [ left; split; reflexivity
                | right; split; [reflexivity|]; split; reflexivity ]
        | ] ].
Qed.

Lemma select_split (n : nat) (table : list (bool * mcmcProposal)) :
  select table = select (firstn n table) ++ select (skipn n table).
Proof.
  revert table. induction n as [|n IH]; intros table; [reflexivity|].
  destruct table as [|[b p] rest]; [reflexivity|].
  cbn [firstn skipn select]. rewrite (IH rest). destruct b; reflexivity.
Qed.

(** One block of [profRegr] against the next [n] rows of the table. *)
Ltac table_block n :=
  match goal with
  | |- _ ++ _ = select ?t =>
      rewrite (select_split n t); cbn [firstn skipn];
      apply (f_equal2 (@app mcmcProposal)); [split_options; reflexivity|]
  end.

(** [profRegr] registers exactly the rows of the decision table whose
    condition holds, in the order of the table. *)
Lemma profRegr_proposals_table (options : pReMiuMOptions) (dataset : pReMiuMData) :
  profRegr_proposals options dataset = select (ruleTable options dataset).
Proof.
  unfold profRegr_proposals, ruleTable. cbv zeta.
  table_block 1%nat. table_block 3%nat. table_block 1%nat. table_block 1%nat.
  table_block 1%nat. table_block 1%nat. table_block 1%nat. table_block 1%nat.
  table_block 3%nat. table_block 1%nat. table_block 1%nat. table_block 3%nat.
  table_block 1%nat. table_block 1%nat. reflexivity.
Qed.

Lemma hasName_select (n : string) (table : list (bool * mcmcProposal)) :
  hasName n (select table)
  = existsb (fun r => fst r && String.eqb (name (snd r)) n) table.
Proof.
  induction table as [|[b p] rest IH]; [reflexivity|].
  cbn [select existsb fst snd]. destruct b; cbn [andb orb]; [|exact IH].
  unfold hasName in *. cbn [existsb]. rewrite IH. reflexivity.
Qed.

(** Reads off the condition under which a given name is registered. *)
Ltac table_lookup :=
  rewrite profRegr_proposals_table, hasName_select;
  unfold ruleTable; cbv zeta; cbn [existsb fst snd name];
  repeat match goal with
  | |- context [String.eqb ?a ?b] =>
      let v := eval vm_compute in (String.eqb a b) in
      change (String.eqb a b) with v
  end;
  rewrite ?andb_false_r, ?andb_true_r; cbn [orb]; rewrite ?orb_false_r.

Lemma registers_alpha (options : pReMiuMOptions) (dataset : pReMiuMData) :
  hasName "metropolisHastingsForAlpha" (profRegr_proposals options dataset)
  = (fixedAlpha options <? 0)%float.
Proof. table_lookup. reflexivity. Qed.

Lemma registers_beta (options : pReMiuMOptions) (dataset : pReMiuMData) :
  hasName "metropolisHastingsForBeta" (profRegr_proposals options dataset)
  = includeResponse options && (0 <? nFixedEffects dataset).
Proof. table_lookup. reflexivity. Qed.

Lemma registers_gammaActive (options : pReMiuMOptions) (dataset : pReMiuMData) :
  hasName "gibbsForGammaActive" (profRegr_proposals options dataset)
  = negb (compare0 (varSelectType options) "None")
    && negb (compare0 (varSelectType options) "Continuous").
Proof. table_lookup. reflexivity. Qed.

Lemma registers_gammaInActive (options : pReMiuMOptions) (dataset : pReMiuMData) :
  hasName "gibbsForGammaInActive" (profRegr_proposals options dataset)
  = negb (compare0 (varSelectType options) "None")
    && negb (compare0 (varSelectType options) "Continuous").
Proof. table_lookup. reflexivity. Qed.

Lemma registers_rhoOmega (options : pReMiuMOptions) (dataset : pReMiuMData) :
  hasName "metropolisHastingsForRhoOmega" (profRegr_proposals options dataset)
  = negb (compare0 (varSelectType options) "None").
Proof. table_lookup. reflexivity. Qed.

Lemma registers_vActive (options : pReMiuMOptions) (dataset : pReMiuMData) :
  In (mkProposal "gibbsForVActive" 1 1 1 gibbsForVActive)
     (profRegr_proposals options dataset).
Proof. unfold profRegr_proposals. left. reflexivity. Qed.

Lemma registers_phi (options : pReMiuMOptions) (dataset : pReMiuMData)
    (n : string) :
  In n ["updateForPhiActive"; "gibbsForPhiInActive"] ->
  hasName n (profRegr_proposals options dataset)
  = compare0 (covariateType options) "Discrete"
    || negb (compare0 (covariateType options) "Normal")
       && compare0 (covariateType options) "Mixed".
Proof.
  intros [Hn|[Hn|[]]]; subst n; table_lookup; reflexivity.
Qed.

Lemma registers_mu_tau (options : pReMiuMOptions) (dataset : pReMiuMData)
    (n : string) :
  In n ["gibbsForMuActive"; "gibbsForTauActive";
        "gibbsForMuInActive"; "gibbsForTauInActive"] ->
  hasName n (profRegr_proposals options dataset)
  = negb (compare0 (covariateType options) "Discrete")
    && (compare0 (covariateType options) "Normal"
        || compare0 (covariateType options) "Mixed").
Proof.
  intros [Hn|[Hn|[Hn|[Hn|[]]]]]; subst n; table_lookup; reflexivity.
Qed.

(** A run in which no call throws makes every call and returns. *)
Lemma exec_neverThrows (thr : list samplerCall -> samplerCall -> bool)
    (done todo : list samplerCall) :
  (forall h c, thr h c = false) ->
  exec thr done todo = (done ++ todo, Returned).
Proof.
  intros Hquiet. revert done.
  induction todo as [|c rest IH]; intros done; cbn [exec].
  - rewrite app_nil_r. reflexivity.
  - rewrite Hquiet, IH, <- app_assoc. reflexivity.
Qed.

Lemma firstSweepOf_positive (options : pReMiuMOptions) :
  UInt.inRange (nBurn options) -> 1 <= firstSweepOf options.
Proof.
  intros H. rewrite (firstSweepOf_value options H).
  unfold UInt.inRange in H.
  assert (0 <= nBurn options / 10) by (apply Z.div_pos; lia). lia.
Qed.

Lemma deferred_true (n : string) : In n deferredNames -> deferred n = true.
Proof.
  intros H. unfold deferred. apply existsb_exists.
  exists n. split; [exact H | apply String.eqb_refl].
Qed.

(** The first sweep of a registered variable-selection proposal. *)
Lemma deferred_firstSweep (options : pReMiuMOptions) (dataset : pReMiuMData)
    (p : mcmcProposal) :
  In p (profRegr_proposals options dataset) ->
  In (name p) deferredNames ->
  firstActiveSweep p = firstSweepOf options.
Proof.
  intros Hp Hn.
  pose proof (registered_shape options dataset) as Hall.
  rewrite Forall_forall in Hall.
  destruct (Hall p Hp) as (_ & _ & [[_ Hd]|[Hf _]]); [|exact Hf].
  rewrite (deferred_true _ Hn) in Hd. discriminate Hd.
Qed.

Lemma In_by_name (n : string) (l : list mcmcProposal) :
  hasName n l = true -> exists p, In p l /\ name p = n.
Proof.
  unfold hasName. rewrite existsb_exists.
  intros [p [Hp Hn]]. exists p. split; [exact Hp|].
  apply String.eqb_eq. exact Hn.
Qed.

(** Distinct names survive the selection of rows. *)
Lemma select_NoDup (table : list (bool * mcmcProposal)) :
  NoDup (map (fun r => name (snd r)) table) -> NoDup (names (select table)).
Proof.
  induction table as [|[b p] rest IH]; intros H; [constructor|].
  cbn [map snd] in H. inversion H as [|x l Hnotin Hrest]; subst.
  cbn [select]. destruct b; [|apply IH; exact Hrest].
  cbn [names map]. constructor; [|apply IH; exact Hrest].
  intros Hin. apply Hnotin.
  clear -Hin. induction rest as [|[b q] rest IH]; [contradiction|].
  cbn [select] in Hin. cbn [map snd].
  destruct b; [|right; apply IH; exact Hin].
  destruct Hin as [Hq|Hin]; [left; exact Hq | right; apply IH; exact Hin].
Qed.

Lemma registered_names_distinct (options : pReMiuMOptions) (dataset : pReMiuMData) :
  NoDup (names (profRegr_proposals options dataset)).
Proof.
  rewrite profRegr_proposals_table. apply select_NoDup.
  apply distinctb_NoDup. vm_compute. reflexivity.
Qed.

(** [addProposal] accepts a whole list whose names are new and distinct
    and whose first sweeps are positive. *)
Lemma mcmcSampler_addAll_ok (todo registry : list mcmcProposal) :
  NoDup (names (registry ++ todo)) ->
  Forall (fun p => 1 <= firstActiveSweep p) todo ->
  mcmcSampler_addAll registry todo = Some (registry ++ todo).
Proof.
  revert registry. induction todo as [|p rest IH]; intros registry Hnd Hfs.
  - rewrite app_nil_r. reflexivity.
  - inversion Hfs as [|x l Hp Hrest]; subst.
    cbn [mcmcSampler_addAll]. unfold mcmcSampler_addProposal.
    assert (hasName (name p) registry = false) as Hnew.
    { apply hasName_not_In. intros Hin.
      unfold names in Hnd. rewrite map_app in Hnd. cbn [map] in Hnd.
      apply NoDup_remove_2 in Hnd. apply Hnd.
      apply in_or_app. left. exact Hin. }
    assert ((firstActiveSweep p <? 1) = false) as Hge by (apply Z.ltb_ge; exact Hp).
    rewrite Hnew, Hge. cbn [orb].
    rewrite (IH (registry ++ [p])).
    + rewrite <- app_assoc. reflexivity.
    + rewrite <- app_assoc. exact Hnd.
    + exact Hrest.
Qed.

(** *** The calls of [profRegr] *)

Lemma registered_app (l k : list samplerCall) :
  registered (l ++ k) = registered l ++ registered k.
Proof.
  induction l as [|c l IH]; [reflexivity|].
  cbn [app registered]. destruct (isAddProposal c); rewrite IH; reflexivity.
Qed.

Lemma registered_AddProposal (l : list mcmcProposal) :
  registered (map AddProposal l) = l.
Proof.
  induction l as [|p l IH]; [reflexivity|].
  cbn [map registered isAddProposal]. rewrite IH. reflexivity.
Qed.

(** The [addProposal] calls of [profRegr] are those of its proposals
    section, for the imported dataset. *)
Lemma registered_profRegr_calls (env : environment) (options : pReMiuMOptions) :
  registered (profRegr_calls env options)
  = profRegr_proposals options (imported env).
Proof.
  unfold profRegr_calls, profRegr_beforeRun, profRegr_addProposals.
  rewrite !registered_app. cbn [registered profRegr_setup profRegr_readData
    profRegr_initialise isAddProposal app].
  rewrite registered_AddProposal. cbn [app]. rewrite !app_nil_r. reflexivity.
Qed.

(** Of the dataset, the proposals section reads [nFixedEffects] only. *)
Lemma profRegr_proposals_shape (options : pReMiuMOptions) (d1 d2 : pReMiuMData) :
  nFixedEffects d1 = nFixedEffects d2 ->
  profRegr_proposals options d1 = profRegr_proposals options d2.
Proof.
  intros H. unfold profRegr_proposals. rewrite H. reflexivity.
Qed.

Lemma closes_app (l k : list samplerCall) :
  closes (l ++ k) = (closes l + closes k)%nat.
Proof. unfold closes. rewrite filter_app. apply length_app. Qed.

Lemma closes_AddProposal (l : list mcmcProposal) :
  closes (map AddProposal l) = 0%nat.
Proof. induction l as [|p l IH]; [reflexivity|exact IH]. Qed.

(** [closeOutputFiles] is the last call of [profRegr] and occurs nowhere
    before. *)
Lemma profRegr_calls_close (env : environment) (options : pReMiuMOptions) :
  exists body,
    profRegr_calls env options = body ++ [CloseOutputFiles]
    /\ closes body = 0%nat
    /\ existsb isInitialise body = true.
Proof.
  exists (profRegr_beforeRun env options
          ++ [Run; AppendToLogFile (currTime env - beginTime env)]).
  split; [|split].
  - unfold profRegr_calls. rewrite <- app_assoc. reflexivity.
  - unfold profRegr_beforeRun, profRegr_addProposals.
    rewrite !closes_app.
    change (SetProposalParams ?a ?b ?c ?d :: ?l)
      with ([SetProposalParams a b c d] ++ l).
    rewrite closes_app, closes_AddProposal. reflexivity.
  - unfold profRegr_beforeRun. rewrite !existsb_app.
    cbn [profRegr_initialise existsb isInitialise orb].
    rewrite !orb_true_r. reflexivity.
Qed.

(** How a run of calls ending in [closeOutputFiles] can end: either every
    call is made (and the last one returns or throws), or an earlier call
    throws and the run stops there. *)
Lemma exec_close (thr : list samplerCall -> samplerCall -> bool)
    (body done : list samplerCall) :
  closes body = 0%nat ->
  let r := exec thr done (body ++ [CloseOutputFiles]) in
  (fst r = done ++ body ++ [CloseOutputFiles]
   /\ (snd r = Returned \/ snd r = Propagated CloseOutputFiles))
  \/ (exists c before after,
        snd r = Propagated c /\ isClose c = false
        /\ body = before ++ c :: after
        /\ fst r = done ++ before ++ [c]
        /\ thr (done ++ before) c = true).
Proof.
  revert done. induction body as [|c rest IH]; intros done Hbody; cbn zeta.
  - left. cbn [app exec]. destruct (thr done CloseOutputFiles); cbn [fst snd].
    + split; [reflexivity | right; reflexivity].
    + split; [reflexivity | left; reflexivity].
  - assert (isClose c = false /\ closes rest = 0%nat) as [Hc Hrest].
    { unfold closes in Hbody |- *. cbn [filter] in Hbody.
      destruct (isClose c); [discriminate Hbody | split; [reflexivity|exact Hbody]]. }
    cbn [app exec]. destruct (thr done c) eqn:Hthr.
    + right. exists c, [], rest. cbn [fst snd app]. rewrite app_nil_r.
      repeat split; try reflexivity; assumption.
    + destruct (IH (done ++ [c]) Hrest) as [[Ht Hr]|(c' & before & after & H)].
      * left. rewrite Ht, <- app_assoc. split; [reflexivity|exact Hr].
      * right. destruct H as (Hs & Hc' & Hb & Ht & Hthr').
        exists c', (c :: before), after.
        rewrite <- app_assoc in Ht, Hthr'. cbn [app] in Ht, Hthr' |- *.
        repeat split; try assumption.
        rewrite Hb. reflexivity.
Qed.

(** *** The sampler object at the time of [run()] *)

Lemma fold_AddProposal (l : list mcmcProposal) (s : mcmcSampler) :
  fold_left applyCall (map AddProposal l) s
  = mkSampler (hasMissingData s) (updateMissingData s) (proposals s ++ l)
      (samplerNSweeps s) (samplerNBurn s) (samplerNFilter s)
      (samplerNProgress s) (samplerReportBurnIn s).
Proof.
  revert s. induction l as [|p l IH]; intros s.
  - cbn [map fold_left]. rewrite app_nil_r. destruct s; reflexivity.
  - cbn [map fold_left]. rewrite IH. cbn. rewrite <- app_assoc. reflexivity.
Qed.

Lemma samplerAtRun_value (env : environment) (options : pReMiuMOptions) :
  samplerAtRun env options
  = mkSampler true (Some updateMissingPReMiuMData)
      (profRegr_proposals options (imported env))
      (nSweeps options) (nBurn options) (nFilter options)
      (nProgress options) (reportBurnIn options).
Proof.
  unfold samplerAtRun, profRegr_beforeRun, profRegr_addProposals.
  rewrite !fold_left_app.
  replace (fold_left applyCall (profRegr_readData options)
             (fold_left applyCall (profRegr_setup options) newSampler))
    with (mkSampler true (Some updateMissingPReMiuMData) []
            (nSweeps options) (nBurn options) (nFilter options)
            (nProgress options) (reportBurnIn options))
    by (vm_compute; reflexivity).
  cbn [fold_left applyCall]. rewrite fold_AddProposal. reflexivity.
Qed.

(** Within a sweep only the first step updates the missing data. *)
Lemma sweep_missingDataUpdates (s : mcmcSampler) (sw : Z) :
  missingDataUpdates (sweep s sw) = if hasMissingData s then 1%nat else 0%nat.
Proof.
  unfold missingDataUpdates, sweep. rewrite !filter_app, !length_app.
  assert (forall l : list mcmcProposal,
            filter isMissingDataUpdate
              (flat_map (fun p =>
                 if firstActiveSweep p <=? sw
                 then repeat (Proposed p) (Z.to_nat (repeatCount p))
                 else []) l) = []) as Hprop.
  { induction l as [|p l IH]; [reflexivity|].
    cbn [flat_map]. rewrite filter_app, IH, app_nil_r.
    destruct (firstActiveSweep p <=? sw); [|reflexivity].
    induction (Z.to_nat (repeatCount p)) as [|k IHk]; [reflexivity|exact IHk]. }
  rewrite Hprop.
  destruct (hasMissingData s);
    destruct ((samplerNBurn s <? sw)
              && ((sw - samplerNBurn s) mod samplerNFilter s =? 0)
              || samplerReportBurnIn s && (sw <=? samplerNBurn s));
    destruct (sw mod samplerNProgress s =? 0); reflexivity.
Qed.

(** C1: with covariateType "Normal", includeResponse and responseExtraVar
    set, varSelectType "None", samplerType "Truncated", fixedAlpha 1.0,
    outcomeType "Normal" and at least one fixed effect, the proposals
    registered are exactly the fourteen listed, in that order; neither
    metropolisHastingsForAlpha nor gibbsForU is among them. *)
Theorem normal_response_scenario (options : pReMiuMOptions) (dataset : pReMiuMData) :
  covariateType options = "Normal" ->
  includeResponse options = true ->
  responseExtraVar options = true ->
  varSelectType options = "None" ->
  samplerType options = "Truncated" ->
  fixedAlpha options = 1%float ->
  outcomeType options = "Normal" ->
  0 < nFixedEffects dataset ->
  profRegr_proposals options dataset =
    [ mkProposal "gibbsForVActive" 1 1 1 gibbsForVActive;
      mkProposal "gibbsForMuActive" 1 1 1 gibbsForMuActive;
      mkProposal "gibbsForTauActive" 1 1 1 gibbsForTauActive;
      mkProposal "metropolisHastingsForThetaActive" 1 1 1
        metropolisHastingsForThetaActive;
      mkProposal "metropolisHastingsForLabels" 1 1 1 metropolisHastingsForLabels;
      mkProposal "gibbsForVInActive" 1 1 1 gibbsForVInActive;
      mkProposal "gibbsForMuInActive" 1 1 1 gibbsForMuInActive;
      mkProposal "gibbsForTauInActive" 1 1 1 gibbsForTauInActive;
      mkProposal "gibbsForThetaInActive" 1 1 1 gibbsForThetaInActive;
      mkProposal "metropolisHastingsForBeta" 1 1 1 metropolisHastingsForBeta;
      mkProposal "metropolisHastingsForLambda" 1 1 1 metropolisHastingsForLambda;
      mkProposal "gibbsForTauEpsilon" 1 1 1 gibbsForTauEpsilon;
      mkProposal "gibbsForSigmaSqY" 1 1 1 gibbsForSigmaSqY;
      mkProposal "gibbsForZ" 1 1 1 gibbsForZ ]
  /\ ~ In "metropolisHastingsForAlpha" (names (profRegr_proposals options dataset))
  /\ ~ In "gibbsForU" (names (profRegr_proposals options dataset)).
Proof.
  intros Hct Hresp Hextra Hvs Hst Halpha Hout Hfix.
  assert (Hlist : profRegr_proposals options dataset =
    [ mkProposal "gibbsForVActive" 1 1 1 gibbsForVActive;
      mkProposal "gibbsForMuActive" 1 1 1 gibbsForMuActive;
      mkProposal "gibbsForTauActive" 1 1 1 gibbsForTauActive;
      mkProposal "metropolisHastingsForThetaActive" 1 1 1
        metropolisHastingsForThetaActive;
      mkProposal "metropolisHastingsForLabels" 1 1 1 metropolisHastingsForLabels;
      mkProposal "gibbsForVInActive" 1 1 1 gibbsForVInActive;
      mkProposal "gibbsForMuInActive" 1 1 1 gibbsForMuInActive;
      mkProposal "gibbsForTauInActive" 1 1 1 gibbsForTauInActive;
      mkProposal "gibbsForThetaInActive" 1 1 1 gibbsForThetaInActive;
      mkProposal "metropolisHastingsForBeta" 1 1 1 metropolisHastingsForBeta;
      mkProposal "metropolisHastingsForLambda" 1 1 1 metropolisHastingsForLambda;
      mkProposal "gibbsForTauEpsilon" 1 1 1 gibbsForTauEpsilon;
      mkProposal "gibbsForSigmaSqY" 1 1 1 gibbsForSigmaSqY;
      mkProposal "gibbsForZ" 1 1 1 gibbsForZ ]).
  { unfold profRegr_proposals.
    rewrite Hct, Hresp, Hextra, Hvs, Hst, Halpha, Hout.
    apply Z.ltb_lt in Hfix. rewrite Hfix. reflexivity. }
  rewrite Hlist. split; [reflexivity|].
  split; cbn; intros H; repeat (destruct H as [H|H]; [discriminate H|]); exact H.
Qed.

Lemma normal_response_scenario_witness :
  names (profRegr_proposals scenarioOptions scenarioData) =
    [ "gibbsForVActive"; "gibbsForMuActive"; "gibbsForTauActive";
      "metropolisHastingsForThetaActive"; "metropolisHastingsForLabels";
      "gibbsForVInActive"; "gibbsForMuInActive"; "gibbsForTauInActive";
      "gibbsForThetaInActive"; "metropolisHastingsForBeta";
      "metropolisHastingsForLambda"; "gibbsForTauEpsilon";
      "gibbsForSigmaSqY"; "gibbsForZ" ].
Proof.
  pose proof (normal_response_scenario scenarioOptions scenarioData
    eq_refl eq_refl eq_refl eq_refl eq_refl eq_refl eq_refl eq_refl) as [H _].
  rewrite H. reflexivity.
Defined.

(** C7: whatever the options and the data, the registry is not empty, its
    first proposal is the active stick-breaking weight update
    gibbsForVActive and its last proposal is the allocation update
    gibbsForZ. *)
Theorem registry_first_and_last (options : pReMiuMOptions) (dataset : pReMiuMData) :
  profRegr_proposals options dataset <> []
  /\ hd_error (profRegr_proposals options dataset)
       = Some (mkProposal "gibbsForVActive" 1 1 1 gibbsForVActive)
  /\ last (profRegr_proposals options dataset)
          (mkProposal "gibbsForVActive" 1 1 1 gibbsForVActive)
       = mkProposal "gibbsForZ" 1 1 1 gibbsForZ
  /\ exists middle,
       profRegr_proposals options dataset =
         mkProposal "gibbsForVActive" 1 1 1 gibbsForVActive
         :: middle ++ [mkProposal "gibbsForZ" 1 1 1 gibbsForZ].
Proof.
  assert (exists middle,
       profRegr_proposals options dataset =
         mkProposal "gibbsForVActive" 1 1 1 gibbsForVActive
         :: middle ++ [mkProposal "gibbsForZ" 1 1 1 gibbsForZ]) as [middle E].
  { unfold profRegr_proposals.
    unfold addProposal at 1. unfold addProposal at 23.
    repeat rewrite app_assoc. rewrite <- app_assoc.
    cbn [app]. eexists. rewrite app_assoc. reflexivity. }
  rewrite E. repeat split.
  - discriminate.
  - rewrite app_comm_cons. apply last_last.
  - exists middle. reflexivity.
Qed.

(** C5: metropolisHastingsForAlpha is registered if and only if
    fixedAlpha < 0 (so it is for fixedAlpha = -1 and is not for
    fixedAlpha = 2.5); without fixed effects metropolisHastingsForBeta is
    not registered, whatever includeResponse is. *)
Theorem alpha_and_beta_inclusion (options : pReMiuMOptions) (dataset : pReMiuMData) :
  (In "metropolisHastingsForAlpha" (names (profRegr_proposals options dataset))
     <-> (fixedAlpha options <? 0)%float = true)
  /\ (fixedAlpha options = (-1)%float ->
      In "metropolisHastingsForAlpha" (names (profRegr_proposals options dataset)))
  /\ (fixedAlpha options = 2.5%float ->
      ~ In "metropolisHastingsForAlpha" (names (profRegr_proposals options dataset)))
  /\ (nFixedEffects dataset = 0 ->
      ~ In "metropolisHastingsForBeta" (names (profRegr_proposals options dataset))).
Proof.
  repeat split.
  - rewrite hasName_In, registers_alpha. trivial.
  - rewrite hasName_In, registers_alpha. trivial.
  - intros H. rewrite hasName_In, registers_alpha, H. reflexivity.
  - intros H. rewrite hasName_not_In, registers_alpha, H. reflexivity.
  - intros H. rewrite hasName_not_In, registers_beta, H.
    apply andb_false_r.
Qed.

Lemma alpha_and_beta_inclusion_witness :
  In "metropolisHastingsForAlpha"
     (names (profRegr_proposals binaryOptions noFixedEffectsData))
  /\ ~ In "metropolisHastingsForAlpha"
       (names (profRegr_proposals continuousOptions noFixedEffectsData))
  /\ ~ In "metropolisHastingsForBeta"
       (names (profRegr_proposals binaryOptions noFixedEffectsData)).
Proof.
  split; [|split].
  - apply (proj1 (proj2 (alpha_and_beta_inclusion binaryOptions noFixedEffectsData))).
    reflexivity.
  - apply (proj1 (proj2 (proj2
      (alpha_and_beta_inclusion continuousOptions noFixedEffectsData)))).
    reflexivity.
  - apply (proj2 (proj2 (proj2
      (alpha_and_beta_inclusion binaryOptions noFixedEffectsData)))).
    reflexivity.
Defined.

(** C6: when covariateType is none of "Discrete", "Normal", "Mixed", none
    of the six covariate-block proposals is registered, and profRegr
    raises nothing on account of the value: if no sampler call throws, it
    makes all its calls and returns. *)
Theorem unrecognised_covariateType (options : pReMiuMOptions) (dataset : pReMiuMData) :
  covariateType options <> "Discrete" ->
  covariateType options <> "Normal" ->
  covariateType options <> "Mixed" ->
  (forall n, In n covariateBlockNames ->
             ~ In n (names (profRegr_proposals options dataset)))
  /\ (forall env, (forall h c, throws env h c = false) ->
                  profRegr env options = (profRegr_calls env options, Returned)).
Proof.
  intros HD HN HM.
  apply compare0_false in HD. apply compare0_false in HN.
  apply compare0_false in HM.
  split.
  - intros n Hn. apply hasName_not_In.
    assert (In n ["updateForPhiActive"; "gibbsForPhiInActive"]
            \/ In n ["gibbsForMuActive"; "gibbsForTauActive";
                     "gibbsForMuInActive"; "gibbsForTauInActive"]) as [H|H].
    { cbn in Hn |- *. tauto. }
    + rewrite (registers_phi options dataset n H), HD, HN, HM. reflexivity.
    + rewrite (registers_mu_tau options dataset n H), HD, HN, HM. reflexivity.
  - intros env Hquiet. unfold profRegr.
    apply (exec_neverThrows (throws env) [] _ Hquiet).
Qed.

Lemma unrecognised_covariateType_witness :
  ~ In "gibbsForMuActive"
       (names (profRegr_proposals unknownCovariateOptions scenarioData))
  /\ snd (profRegr (quietEnv scenarioData) unknownCovariateOptions) = Returned.
Proof.
  assert (covariateType unknownCovariateOptions <> "Discrete") as HD
    by (cbn; discriminate).
  assert (covariateType unknownCovariateOptions <> "Normal") as HN
    by (cbn; discriminate).
  assert (covariateType unknownCovariateOptions <> "Mixed") as HM
    by (cbn; discriminate).
  destruct (unrecognised_covariateType unknownCovariateOptions scenarioData
              HD HN HM) as [Hnames Hret].
  split.
  - apply Hnames. cbn. tauto.
  - rewrite (Hret (quietEnv scenarioData)); [reflexivity|].
    intros h c. reflexivity.
Defined.

(** C4: when varSelectType is not "None", every registered
    variable-selection proposal (gibbsForGammaActive, gibbsForGammaInActive,
    metropolisHastingsForRhoOmega) has firstActiveSweep 1 + floor(nBurn/10);
    the two gamma updates are registered exactly when varSelectType is not
    "Continuous" either, the rho/omega update always; for nBurn = 50 the
    first active sweep is 6. *)
Theorem deferred_activation (options : pReMiuMOptions) (dataset : pReMiuMData) :
  UInt.inRange (nBurn options) ->
  varSelectType options <> "None" ->
  (forall p, In p (profRegr_proposals options dataset) ->
             In (name p) deferredNames ->
             firstActiveSweep p = 1 + nBurn options / 10)
  /\ (In "gibbsForGammaActive" (names (profRegr_proposals options dataset))
      <-> varSelectType options <> "Continuous")
  /\ (In "gibbsForGammaInActive" (names (profRegr_proposals options dataset))
      <-> varSelectType options <> "Continuous")
  /\ (exists p, In p (profRegr_proposals options dataset)
                /\ name p = "metropolisHastingsForRhoOmega"
                /\ firstActiveSweep p = 1 + nBurn options / 10)
  /\ (nBurn options = 50 ->
      forall p, In p (profRegr_proposals options dataset) ->
                In (name p) deferredNames -> firstActiveSweep p = 6).
Proof.
  intros Hrange Hvs.
  assert (forall p, In p (profRegr_proposals options dataset) ->
             In (name p) deferredNames ->
             firstActiveSweep p = 1 + nBurn options / 10) as Hfirst.
  { intros p Hp Hn. rewrite (deferred_firstSweep options dataset p Hp Hn).
    apply firstSweepOf_value. exact Hrange. }
  apply compare0_false in Hvs.
  split; [exact Hfirst|].
  split; [|split; [|split]].
  - rewrite hasName_In, registers_gammaActive, Hvs. cbn [negb andb].
    rewrite negb_true_iff. apply compare0_false.
  - rewrite hasName_In, registers_gammaInActive, Hvs. cbn [negb andb].
    rewrite negb_true_iff. apply compare0_false.
  - destruct (In_by_name "metropolisHastingsForRhoOmega"
                (profRegr_proposals options dataset)) as [p [Hp Hn]].
    { rewrite registers_rhoOmega, Hvs. reflexivity. }
    exists p. split; [exact Hp|]. split; [exact Hn|].
    apply Hfirst; [exact Hp|]. rewrite Hn. cbn. tauto.
  - intros H50 p Hp Hn. rewrite (Hfirst p Hp Hn), H50. reflexivity.
Qed.

Lemma deferred_activation_witness :
  (forall p, In p (profRegr_proposals binaryOptions scenarioData) ->
             In (name p) deferredNames -> firstActiveSweep p = 6)
  /\ In "gibbsForGammaActive" (names (profRegr_proposals binaryOptions scenarioData))
  /\ ~ In "gibbsForGammaActive"
         (names (profRegr_proposals continuousOptions scenarioData)).
Proof.
  assert (UInt.inRange (nBurn binaryOptions)) as Hrange
    by (unfold UInt.inRange, UInt.modulus; cbn; lia).
  assert (varSelectType binaryOptions <> "None") as Hb by (cbn; discriminate).
  assert (varSelectType continuousOptions <> "None") as Hc by (cbn; discriminate).
  destruct (deferred_activation binaryOptions scenarioData Hrange Hb)
    as (_ & Hgamma & _ & _ & Hsix).
  destruct (deferred_activation continuousOptions scenarioData Hrange Hc)
    as (_ & Hgamma' & _).
  split; [apply Hsix; reflexivity|].
  split.
  - apply Hgamma. cbn; discriminate.
  - intros Hin. apply Hgamma' in Hin. apply Hin. reflexivity.
Defined.

(** C2, as claimed: every registered descriptor has
    firstActiveSweep <= nSweeps.  It fails for a burn-in of 50000 sweeps
    with nSweeps = 1000 and binary variable selection, where the
    variable-selection proposals start at sweep 5001. *)
Lemma firstSweep_beyond_nSweeps :
  ~ firstSweepsWithinRun longBurnOptions scenarioData.
Proof.
  unfold firstSweepsWithinRun. rewrite Forall_forall. intros H.
  specialize (H (mkProposal "metropolisHastingsForRhoOmega" 1 1 5001
                   metropolisHastingsForRhoOmega)).
  cbn [firstActiveSweep nSweeps longBurnOptions] in H.
  assert (5001 <= 1000) as Habs; [|lia].
  apply H. vm_compute. tauto.
Qed.

(** C2, amended: profRegr never compares a first sweep with nSweeps: the
    registered descriptors are the same for every value of nSweeps.  Every
    registered descriptor has firstActiveSweep 1, except the
    variable-selection proposals (gibbsForGammaActive,
    gibbsForGammaInActive, metropolisHastingsForRhoOmega), which have
    1 + floor(nBurn/10) and are registered only when varSelectType is not
    "None".  So all first sweeps are <= nSweeps exactly when nSweeps >= 1
    and, if varSelectType is not "None", 1 + floor(nBurn/10) <= nSweeps;
    that is the case whenever 1 <= nSweeps and nBurn <= nSweeps. *)
Theorem firstSweeps_within_run_iff (options : pReMiuMOptions) (dataset : pReMiuMData) :
  UInt.inRange (nBurn options) ->
  (forall n, profRegr_proposals (withNSweeps n options) dataset
             = profRegr_proposals options dataset)
  /\ Forall (fun p =>
       firstActiveSweep p
       = if deferred (name p) then 1 + nBurn options / 10 else 1)
       (profRegr_proposals options dataset)
  /\ (forall p, In p (profRegr_proposals options dataset) ->
                In (name p) deferredNames -> varSelectType options <> "None")
  /\ (firstSweepsWithinRun options dataset
      <-> 1 <= nSweeps options
          /\ (varSelectType options <> "None" ->
              1 + nBurn options / 10 <= nSweeps options))
  /\ (1 <= nSweeps options -> nBurn options <= nSweeps options ->
      firstSweepsWithinRun options dataset).
Proof.
  intros Hrange.
  pose proof (firstSweepOf_value options Hrange) as Hvalue.
  assert (1 <= nSweeps options
          /\ (varSelectType options <> "None" ->
              1 + nBurn options / 10 <= nSweeps options)
          -> firstSweepsWithinRun options dataset) as Hsuff.
  { intros [H1 Hvs]. unfold firstSweepsWithinRun.
    eapply Forall_impl; [|apply registered_shape].
    intros p (_ & _ & [[Hf _]|(Hf & _ & Hsel)]); cbn beta.
    - rewrite Hf. exact H1.
    - rewrite Hf, Hvalue. apply Hvs.
      apply compare0_false. apply negb_true_iff. exact Hsel. }
  split; [|split; [|split; [|split; [split; [|exact Hsuff]|]]]].
  - intros n. unfold profRegr_proposals, firstSweepOf. reflexivity.
  - eapply Forall_impl; [|apply registered_shape].
    intros p (_ & _ & [[Hf Hd]|(Hf & Hd & _)]); cbn beta; rewrite Hd, Hf;
      [reflexivity|exact Hvalue].
  - intros p Hp Hn.
    pose proof (registered_shape options dataset) as Hall.
    rewrite Forall_forall in Hall.
    destruct (Hall p Hp) as (_ & _ & [[_ Hd]|(_ & _ & Hsel)]).
    + rewrite (deferred_true _ Hn) in Hd. discriminate Hd.
    + apply compare0_false. apply negb_true_iff. exact Hsel.
  - unfold firstSweepsWithinRun. rewrite Forall_forall. intros Hall. split.
    + apply (Hall _ (registers_vActive options dataset)).
    + intros Hvs. apply compare0_false in Hvs.
      destruct (In_by_name "metropolisHastingsForRhoOmega"
                  (profRegr_proposals options dataset)) as [p [Hp Hn]].
      { rewrite registers_rhoOmega, Hvs. reflexivity. }
      rewrite <- Hvalue, <- (deferred_firstSweep options dataset p Hp).
      * apply Hall. exact Hp.
      * rewrite Hn. cbn. tauto.
  - intros H1 Hle. apply Hsuff. split; [exact H1|]. intros _.
    unfold UInt.inRange in Hrange.
    assert (nBurn options / 10 <= nBurn options)
      by (apply Z.div_le_upper_bound; lia).
    assert (nBurn options = 0 \/ nBurn options / 10 < nBurn options) as [H0|Hlt].
    { destruct (Z.eq_dec (nBurn options) 0) as [E|E]; [left; exact E|right].
      apply Z.div_lt_upper_bound; lia. }
    + rewrite H0. cbn. exact H1.
    + lia.
Qed.

Lemma firstSweeps_within_run_iff_witness :
  firstSweepsWithinRun binaryOptions scenarioData
  /\ Forall (fun p => firstActiveSweep p = if deferred (name p) then 6 else 1)
            (profRegr_proposals binaryOptions scenarioData).
Proof.
  assert (UInt.inRange (nBurn binaryOptions)) as Hrange
    by (unfold UInt.inRange, UInt.modulus; cbn; lia).
  destruct (firstSweeps_within_run_iff binaryOptions scenarioData Hrange)
    as (_ & Hshape & _ & _ & Hsuff).
  split; [apply Hsuff; cbn; lia | exact Hshape].
Defined.

(** C9: the addProposal calls of profRegr never meet the failure condition
    of addProposal: the names registered in one run are pairwise distinct,
    every descriptor has firstActiveSweep >= 1, weight 1.0 > 0 and repeat
    count 1, and registering them one after the other, starting from the
    empty registry, succeeds and yields exactly these descriptors. *)
Theorem addProposal_never_fails (options : pReMiuMOptions) (dataset : pReMiuMData) :
  UInt.inRange (nBurn options) ->
  NoDup (names (profRegr_proposals options dataset))
  /\ Forall (fun p => 1 <= firstActiveSweep p
                      /\ weight p = 1%float /\ (0 <? weight p)%float = true
                      /\ repeatCount p = 1)
            (profRegr_proposals options dataset)
  /\ mcmcSampler_addAll [] (profRegr_proposals options dataset)
     = Some (profRegr_proposals options dataset)
  /\ (forall before p after,
        profRegr_proposals options dataset = before ++ p :: after ->
        mcmcSampler_addProposal before p = Some (before ++ [p])).
Proof.
  intros Hrange.
  pose proof (registered_names_distinct options dataset) as Hnd.
  assert (Forall (fun p => 1 <= firstActiveSweep p
                      /\ weight p = 1%float /\ (0 <? weight p)%float = true
                      /\ repeatCount p = 1)
            (profRegr_proposals options dataset)) as Hall.
  { eapply Forall_impl; [|apply registered_shape].
    intros p (Hw & Hr & Hf); cbn beta.
    split; [|split; [exact Hw|split; [rewrite Hw; reflexivity|exact Hr]]].
    destruct Hf as [[Hf _]|[Hf _]]; rewrite Hf; [lia|].
    apply firstSweepOf_positive. exact Hrange. }
  split; [exact Hnd|]. split; [exact Hall|]. split.
  - apply (mcmcSampler_addAll_ok (profRegr_proposals options dataset) []).
    + exact Hnd.
    + eapply Forall_impl; [|exact Hall]. intros p [H _]. exact H.
  - intros before p after E. unfold mcmcSampler_addProposal.
    rewrite E in Hnd, Hall.
    assert (hasName (name p) before = false) as Hnew.
    { apply hasName_not_In. intros Hin.
      unfold names in Hnd. rewrite map_app in Hnd. cbn [map] in Hnd.
      apply NoDup_remove_2 in Hnd. apply Hnd.
      apply in_or_app. left. exact Hin. }
    rewrite Forall_forall in Hall.
    destruct (Hall p) as [Hp _]; [apply in_or_app; right; left; reflexivity|].
    apply Z.ltb_ge in Hp. rewrite Hnew, Hp. reflexivity.
Qed.

Lemma addProposal_never_fails_witness :
  mcmcSampler_addAll [] (profRegr_proposals binaryOptions scenarioData)
  = Some (profRegr_proposals binaryOptions scenarioData).
Proof.
  assert (UInt.inRange (nBurn binaryOptions)) as Hrange
    by (unfold UInt.inRange, UInt.modulus; cbn; lia).
  exact (proj1 (proj2 (proj2
    (addProposal_never_fails binaryOptions scenarioData Hrange)))).
Defined.

(** C8: the composition depends on the options and on the shape of the
    dataset only.  Two invocations with the same options, whose imported
    datasets have the same counts, register the same descriptors in the
    same order, whatever the observations, the clock readings and the
    behaviour of the sampler calls are. *)
Theorem composition_is_pure (options : pReMiuMOptions) (env1 env2 : environment) :
  nCovariates (imported env1) = nCovariates (imported env2) ->
  nFixedEffects (imported env1) = nFixedEffects (imported env2) ->
  nCategoriesY (imported env1) = nCategoriesY (imported env2) ->
  profRegr_proposals options (imported env1)
    = profRegr_proposals options (imported env2)
  /\ registered (profRegr_calls env1 options)
     = registered (profRegr_calls env2 options)
  /\ (snd (profRegr env1 options) = Returned ->
      snd (profRegr env2 options) = Returned ->
      registered (fst (profRegr env1 options))
      = registered (fst (profRegr env2 options))).
Proof.
  intros _ Hfixed _.
  pose proof (profRegr_proposals_shape options _ _ Hfixed) as Hsame.
  split; [exact Hsame|]. split.
  - rewrite !registered_profRegr_calls. exact Hsame.
  - intros H1 H2.
    assert (forall env, snd (profRegr env options) = Returned ->
              registered (fst (profRegr env options))
              = profRegr_proposals options (imported env)) as Hret.
    { intros env Hr. unfold profRegr in *.
      destruct (profRegr_calls_close env options) as (body & Hcalls & Hbody & _).
      rewrite Hcalls in Hr |- *.
      destruct (exec_close (throws env) body [] Hbody)
        as [[Ht _]|(c & before & after & Hs & _)].
      - rewrite Ht. cbn [app]. rewrite <- Hcalls.
        apply registered_profRegr_calls.
      - cbn zeta in Hs. rewrite Hs in Hr. discriminate Hr. }
    rewrite (Hret env1 H1), (Hret env2 H2). exact Hsame.
Qed.

Lemma composition_is_pure_witness :
  registered (fst (profRegr (quietEnv scenarioData) scenarioOptions))
  = registered (fst (profRegr (mkEnv neverThrows otherData 5 77) scenarioOptions)).
Proof.
  apply (composition_is_pure scenarioOptions (quietEnv scenarioData)
           (mkEnv neverThrows otherData 5 77));
    reflexivity.
Defined.

(** C3, as claimed: once initialiseOutputFiles has been reached,
    closeOutputFiles is called exactly once on every exit path.  It fails
    when run() throws: the exception leaves profRegr after four lifecycle
    calls, none of which is closeOutputFiles. *)
Lemma output_files_not_closed_when_run_throws :
  ~ releasesOutputFiles (profRegr (failingRunEnv scenarioData) scenarioOptions).
Proof.
  unfold releasesOutputFiles. intros H.
  assert (closes (fst (profRegr (failingRunEnv scenarioData) scenarioOptions))
          = 0%nat) as Hzero by (vm_compute; reflexivity).
  rewrite Hzero in H. discriminate H. vm_compute. reflexivity.
Qed.

(** C3, amended: profRegr calls closeOutputFiles at most once, and exactly
    once precisely when every call before it has completed, in which case
    it is the last call made.  profRegr has no handler: when an earlier
    call (initialiseChain or run, say) throws, the exception propagates
    and profRegr itself makes no closeOutputFiles call. *)
Theorem closeOutputFiles_on_completion_only (env : environment)
    (options : pReMiuMOptions) :
  (closes (fst (profRegr env options)) <= 1)%nat
  /\ (closes (fst (profRegr env options)) = 1%nat
      <-> snd (profRegr env options) = Returned
          \/ snd (profRegr env options) = Propagated CloseOutputFiles)
  /\ (snd (profRegr env options) = Returned ->
      fst (profRegr env options) = profRegr_calls env options
      /\ last (fst (profRegr env options)) Run = CloseOutputFiles)
  /\ (forall c, snd (profRegr env options) = Propagated c ->
                isClose c = false ->
                closes (fst (profRegr env options)) = 0%nat).
Proof.
  unfold profRegr.
  destruct (profRegr_calls_close env options) as (body & Hcalls & Hbody & _).
  rewrite Hcalls.
  destruct (exec_close (throws env) body [] Hbody)
    as [[Ht Hr]|(c & before & after & Hs & Hc & Hb & Ht & _)];
    cbn zeta in *; cbn [app] in Ht.
  - assert (closes (fst (exec (throws env) [] (body ++ [CloseOutputFiles])))
            = 1%nat) as Hone.
    { rewrite Ht, closes_app, Hbody. reflexivity. }
    rewrite Hone. split; [lia|]. split; [tauto|]. split.
    + intros _. split; [exact Ht|]. rewrite Ht. apply last_last.
    + intros c Hc Hnot. destruct Hr as [Hr|Hr]; rewrite Hr in Hc.
      * discriminate Hc.
      * injection Hc as Hc. subst c. discriminate Hnot.
  - assert (closes (fst (exec (throws env) [] (body ++ [CloseOutputFiles])))
            = 0%nat) as Hzero.
    { rewrite Ht, closes_app. rewrite Hb, closes_app in Hbody.
      unfold closes at 2. cbn [filter]. rewrite Hc. cbn [List.length]. lia. }
    rewrite Hzero, Hs. split; [lia|]. split; [|split].
    + split; [discriminate|]. intros [H|H]; [discriminate H|].
      injection H as H. subst c. discriminate Hc.
    + discriminate.
    + reflexivity.
Qed.

Lemma closeOutputFiles_on_completion_only_witness :
  closes (fst (profRegr (quietEnv scenarioData) scenarioOptions)) = 1%nat
  /\ closes (fst (profRegr (failingRunEnv scenarioData) scenarioOptions)) = 0%nat.
Proof.
  split.
  - apply (proj1 (proj2 (closeOutputFiles_on_completion_only
                           (quietEnv scenarioData) scenarioOptions))).
    left. vm_compute. reflexivity.
  - apply (proj2 (proj2 (proj2 (closeOutputFiles_on_completion_only
                           (failingRunEnv scenarioData) scenarioOptions))) Run).
    + vm_compute. reflexivity.
    + reflexivity.
Defined.

(** C10: for every input, profRegr binds the model with the
    has-missing-data flag true and installs updateMissingPReMiuMData as the
    missing-data updater; the sampler on which run() is called therefore
    declares missing data, and each of its nSweeps sweeps begins with the
    one call of that updater, whatever the imported dataset contains. *)
Theorem missing_data_always_declared (env : environment) (options : pReMiuMOptions) :
  (exists rest,
     profRegr_calls env options
     = SetOptions options
       :: SetModel importPReMiuMData initialisePReMiuM pReMiuMLogPost true
       :: SetUpdateMissingDataFn updateMissingPReMiuMData
       :: rest)
  /\ (forall imp init logPost b,
        In (SetModel imp init logPost b) (profRegr_calls env options) -> b = true)
  /\ hasMissingData (samplerAtRun env options) = true
  /\ updateMissingData (samplerAtRun env options) = Some updateMissingPReMiuMData
  /\ (forall sw,
        hd_error (sweep (samplerAtRun env options) sw)
        = Some (MissingDataUpdated (Some updateMissingPReMiuMData))
        /\ missingDataUpdates (sweep (samplerAtRun env options) sw) = 1%nat)
  /\ List.length (run (samplerAtRun env options)) = Z.to_nat (nSweeps options)
  /\ Forall (fun events =>
               hd_error events
               = Some (MissingDataUpdated (Some updateMissingPReMiuMData)))
            (run (samplerAtRun env options)).
Proof.
  assert (forall sw,
        hd_error (sweep (samplerAtRun env options) sw)
        = Some (MissingDataUpdated (Some updateMissingPReMiuMData))
        /\ missingDataUpdates (sweep (samplerAtRun env options) sw) = 1%nat)
    as Hsweep.
  { intros sw. rewrite sweep_missingDataUpdates, samplerAtRun_value.
    split; reflexivity. }
  split; [|split; [|split; [|split; [|split; [exact Hsweep|split]]]]].
  - eexists. unfold profRegr_calls, profRegr_beforeRun.
    cbn [profRegr_setup app]. reflexivity.
  - intros imp init logPost b Hin.
    unfold profRegr_calls, profRegr_beforeRun, profRegr_addProposals in Hin.
    rewrite !in_app_iff in Hin.
    cbn [In profRegr_setup profRegr_readData profRegr_initialise] in Hin.
    rewrite in_map_iff in Hin.
    repeat match type of Hin with
    | _ \/ _ => destruct Hin as [Hin|Hin]
    end; try discriminate Hin; try contradiction.
    + injection Hin as _ _ _ Hb. symmetry. exact Hb.
    + destruct Hin as [p [Hp _]]. discriminate Hp.
  - rewrite samplerAtRun_value. reflexivity.
  - rewrite samplerAtRun_value. reflexivity.
  - unfold run. rewrite length_map, length_seq, samplerAtRun_value. reflexivity.
  - unfold run. apply Forall_forall. intros events Hin.
    apply in_map_iff in Hin. destruct Hin as [k [Hk _]]. subst events.
    apply (Hsweep (Z.of_nat k)).
Qed.

Lemma missing_data_always_declared_witness :
  hd_error (sweep (samplerAtRun (quietEnv noFixedEffectsData) scenarioOptions) 1)
  = Some (MissingDataUpdated (Some updateMissingPReMiuMData)).
Proof.
  apply (proj1 (proj2 (proj2 (proj2 (proj2
    (missing_data_always_declared (quietEnv noFixedEffectsData)
       scenarioOptions)))))).
Defined.

(** ** Further properties of the proposals section *)

Lemma select_Forall (P : mcmcProposal -> Prop) (table : list (bool * mcmcProposal)) :
  Forall P (map snd table) -> Forall P (select table).
Proof.
  induction table as [|[b p] rest IH]; intros H; [constructor|].
  cbn [map snd] in H. inversion H as [|x l Hp Hrest]; subst.
  cbn [select]. destruct b; [constructor; [exact Hp|]|]; apply IH; exact Hrest.
Qed.

Lemma select_Subseq (table : list (bool * mcmcProposal)) :
  Subseq (names (select table)) (map (fun r => name (snd r)) table).
Proof.
  induction table as [|[b p] rest IH]; [constructor|].
  cbn [select map snd]. destruct b.
  - cbn [names map]. apply Subseq_keep. exact IH.
  - apply Subseq_skip. exact IH.
Qed.

Lemma select_length (table : list (bool * mcmcProposal)) :
  (List.length (select table) <= List.length table)%nat.
Proof.
  induction table as [|[b p] rest IH]; [reflexivity|].
  cbn [select]. destruct b; cbn [List.length]; lia.
Qed.

Lemma Subseq_In (l k : list string) (x : string) :
  Subseq l k -> In x l -> In x k.
Proof.
  induction 1 as [|y l k _ IH|y l k _ IH]; intros Hin.
  - exact Hin.
  - right. apply IH. exact Hin.
  - destruct Hin as [E|Hin]; [left; exact E | right; apply IH; exact Hin].
Qed.

Lemma Subseq_before (l k : list string) (a b : string) :
  Subseq l k -> before a b l -> before a b k.
Proof.
  induction 1 as [|y l k Hsub IH|y l k Hsub IH]; intros H.
  - exact H.
  - right. apply IH. exact H.
  - destruct H as [[E Hb]|H].
    + left. split; [exact E | apply (Subseq_In l k b Hsub Hb)].
    + right. apply IH. exact H.
Qed.

Lemma before_In (a b : string) (l : list string) :
  before a b l -> In a l /\ In b l.
Proof.
  induction l as [|x k IH]; [contradiction|].
  intros [[E Hb]|H].
  - split; [left; exact E | right; exact Hb].
  - destruct (IH H) as [Ha Hb]. split; right; assumption.
Qed.

Lemma before_asymmetric (a b : string) (l : list string) :
  NoDup l -> before a b l -> before b a l -> False.
Proof.
  induction l as [|x k IH]; [intros _ []|].
  intros Hnd Hab Hba. inversion Hnd as [|y m Hx Hk]; subst.
  destruct Hab as [[Ea Hb]|Hab], Hba as [[Eb Ha]|Hba].
  - apply Hx. rewrite Ea. exact Ha.
  - apply Hx. rewrite Ea. apply (before_In b a k Hba).
  - apply Hx. rewrite Eb. apply (before_In a b k Hab).
  - apply IH; assumption.
Qed.

Lemma before_total (a b : string) (l : list string) :
  In a l -> In b l -> a <> b -> before a b l \/ before b a l.
Proof.
  induction l as [|x k IH]; [contradiction|].
  intros [Ea|Ha] [Eb|Hb] Hne.
  - exfalso. apply Hne. rewrite <- Ea, <- Eb. reflexivity.
  - left. left. split; assumption.
  - right. left. split; assumption.
  - destruct (IH Ha Hb Hne) as [H|H]; [left|right]; right; exact H.
Qed.

Lemma beforeb_before (a b : string) (l : list string) :
  beforeb a b l = true -> before a b l.
Proof.
  induction l as [|x k IH]; [discriminate|].
  cbn [beforeb before]. intros H. apply orb_true_iff in H.
  destruct H as [H|H]; [left|right; apply IH; exact H].
  apply andb_true_iff in H. destruct H as [Hx Hb].
  split; [apply String.eqb_eq; exact Hx|].
  apply existsb_exists in Hb. destruct Hb as [y [Hy E]].
  apply String.eqb_eq in E. subst y. exact Hy.
Qed.

Lemma canonicalOrder_NoDup : NoDup canonicalOrder.
Proof. apply distinctb_NoDup. vm_compute. reflexivity. Qed.

(** The registered names are the canonical ones, some left out. *)
Lemma registered_names_canonical (options : pReMiuMOptions) (dataset : pReMiuMData) :
  Subseq (names (profRegr_proposals options dataset)) canonicalOrder.
Proof.
  rewrite profRegr_proposals_table.
  change canonicalOrder
    with (map (fun r => name (snd r)) (ruleTable options dataset)).
  apply select_Subseq.
Qed.

(** X1: every registered descriptor carries, as its name, the identifier
    of the update function it points to. *)
Theorem name_matches_update_function (options : pReMiuMOptions)
    (dataset : pReMiuMData) :
  Forall (fun p => name p = fnName (updateCallable p))
         (profRegr_proposals options dataset).
Proof.
  rewrite profRegr_proposals_table. apply select_Forall.
  unfold ruleTable. cbv zeta. cbn [map snd].
  repeat (apply Forall_cons; [reflexivity|]). apply Forall_nil.
Qed.

(** X2: the order of registration does not depend on the configuration.
    The registered names always form a subsequence of one fixed order; so
    if one proposal precedes another in some registry, it precedes it in
    every registry that contains both. *)
Theorem registration_order_is_fixed (o1 o2 : pReMiuMOptions)
    (d1 d2 : pReMiuMData) (a b : string) :
  Subseq (names (profRegr_proposals o1 d1)) canonicalOrder
  /\ (before a b (names (profRegr_proposals o1 d1)) ->
      In a (names (profRegr_proposals o2 d2)) ->
      In b (names (profRegr_proposals o2 d2)) ->
      before a b (names (profRegr_proposals o2 d2))).
Proof.
  split; [apply registered_names_canonical|].
  intros H1 Ha Hb.
  pose proof (Subseq_before _ _ a b (registered_names_canonical o1 d1) H1) as Hc.
  assert (a <> b) as Hne.
  { intros E. subst b.
    apply (before_asymmetric a a canonicalOrder canonicalOrder_NoDup Hc Hc). }
  destruct (before_total a b _ Ha Hb Hne) as [H|H]; [exact H|].
  exfalso.
  pose proof (Subseq_before _ _ b a (registered_names_canonical o2 d2) H) as Hc'.
  apply (before_asymmetric a b canonicalOrder canonicalOrder_NoDup Hc Hc').
Qed.

Lemma registration_order_is_fixed_witness :
  before "gibbsForMuActive" "gibbsForZ"
         (names (profRegr_proposals maximalOptions scenarioData)).
Proof.
  apply (proj2 (registration_order_is_fixed scenarioOptions maximalOptions
                  scenarioData scenarioData "gibbsForMuActive" "gibbsForZ")).
  - apply beforeb_before. vm_compute. reflexivity.
  - apply hasName_In. vm_compute. reflexivity.
  - apply hasName_In. vm_compute. reflexivity.
Defined.

Lemma registers_always (options : pReMiuMOptions) (dataset : pReMiuMData)
    (n : string) :
  In n ["gibbsForVActive"; "metropolisHastingsForLabels";
        "gibbsForVInActive"; "gibbsForZ"] ->
  hasName n (profRegr_proposals options dataset) = true.
Proof.
  intros [Hn|[Hn|[Hn|[Hn|[]]]]]; subst n; table_lookup; reflexivity.
Qed.

Lemma registers_theta (options : pReMiuMOptions) (dataset : pReMiuMData)
    (n : string) :
  In n ["metropolisHastingsForThetaActive"; "gibbsForThetaInActive"] ->
  hasName n (profRegr_proposals options dataset) = includeResponse options.
Proof.
  intros [Hn|[Hn|[]]]; subst n; table_lookup; reflexivity.
Qed.

Lemma registers_extraVar (options : pReMiuMOptions) (dataset : pReMiuMData)
    (n : string) :
  In n ["metropolisHastingsForLambda"; "gibbsForTauEpsilon"] ->
  hasName n (profRegr_proposals options dataset)
  = includeResponse options && responseExtraVar options.
Proof.
  intros [Hn|[Hn|[]]]; subst n; table_lookup; reflexivity.
Qed.

Lemma registers_U (options : pReMiuMOptions) (dataset : pReMiuMData) :
  hasName "gibbsForU" (profRegr_proposals options dataset)
  = negb (compare0 (samplerType options) "Truncated").
Proof. table_lookup. reflexivity. Qed.

Lemma registers_sigmaSqY (options : pReMiuMOptions) (dataset : pReMiuMData) :
  hasName "gibbsForSigmaSqY" (profRegr_proposals options dataset)
  = compare0 (outcomeType options) "Normal".
Proof. table_lookup. reflexivity. Qed.

(** X3: a registry has at least 4 and at most 21 proposals, and both
    bounds are attained. *)
Theorem registry_size_bounds (options : pReMiuMOptions) (dataset : pReMiuMData) :
  (4 <= List.length (profRegr_proposals options dataset) <= 21)%nat
  /\ (exists o d, List.length (profRegr_proposals o d) = 4%nat)
  /\ (exists o d, List.length (profRegr_proposals o d) = 21%nat).
Proof.
  split; [split|split].
  - rewrite <- (length_map name).
    apply (NoDup_incl_length
             (l := ["gibbsForVActive"; "metropolisHastingsForLabels";
                    "gibbsForVInActive"; "gibbsForZ"])).
    + apply distinctb_NoDup. reflexivity.
    + intros n Hn. apply hasName_In. apply registers_always. exact Hn.
  - rewrite profRegr_proposals_table.
    apply (select_length (ruleTable options dataset)).
  - exists minimalOptions, noFixedEffectsData. reflexivity.
  - exists maximalOptions, scenarioData. reflexivity.
Qed.

(** X4: the response block.  The two theta updates are registered exactly
    when includeResponse is set; the lambda and tauEpsilon updates exactly
    when includeResponse and responseExtraVar are both set; the beta
    update exactly when includeResponse is set and there is a fixed
    effect.  Without includeResponse, responseExtraVar and nFixedEffects
    have no effect. *)
Theorem response_block_inclusion (options : pReMiuMOptions) (dataset : pReMiuMData) :
  (forall n, In n ["metropolisHastingsForThetaActive"; "gibbsForThetaInActive"] ->
     (In n (names (profRegr_proposals options dataset))
      <-> includeResponse options = true))
  /\ (forall n, In n ["metropolisHastingsForLambda"; "gibbsForTauEpsilon"] ->
     (In n (names (profRegr_proposals options dataset))
      <-> includeResponse options = true /\ responseExtraVar options = true))
  /\ (In "metropolisHastingsForBeta" (names (profRegr_proposals options dataset))
      <-> includeResponse options = true /\ 0 < nFixedEffects dataset).
Proof.
  split; [|split].
  - intros n Hn. rewrite hasName_In, (registers_theta options dataset n Hn).
    tauto.
  - intros n Hn. rewrite hasName_In, (registers_extraVar options dataset n Hn).
    apply andb_true_iff.
  - rewrite hasName_In, registers_beta, andb_true_iff, Z.ltb_lt. tauto.
Qed.

Lemma response_block_inclusion_witness :
  In "gibbsForTauEpsilon" (names (profRegr_proposals scenarioOptions scenarioData))
  /\ ~ In "metropolisHastingsForBeta"
         (names (profRegr_proposals scenarioOptions noFixedEffectsData)).
Proof.
  split.
  - apply (proj1 (proj2 (response_block_inclusion scenarioOptions scenarioData))
             "gibbsForTauEpsilon").
    + right. left. reflexivity.
    + split; reflexivity.
  - intros H.
    apply (proj2 (proj2 (response_block_inclusion scenarioOptions
                           noFixedEffectsData))) in H.
    destruct H as [_ H]. cbn in H. lia.
Defined.

(** X5: gibbsForU is registered for every samplerType other than
    "Truncated", recognised or not; gibbsForSigmaSqY is registered exactly
    when outcomeType is "Normal", also when includeResponse is not set. *)
Theorem sampler_and_outcome_inclusion (options : pReMiuMOptions)
    (dataset : pReMiuMData) :
  (In "gibbsForU" (names (profRegr_proposals options dataset))
   <-> samplerType options <> "Truncated")
  /\ (In "gibbsForSigmaSqY" (names (profRegr_proposals options dataset))
      <-> outcomeType options = "Normal").
Proof.
  split.
  - rewrite hasName_In, registers_U, negb_true_iff. apply compare0_false.
  - rewrite hasName_In, registers_sigmaSqY. apply String.eqb_eq.
Qed.

Lemma sampler_and_outcome_inclusion_witness :
  In "gibbsForU" (names (profRegr_proposals continuousOptions scenarioData))
  /\ In "gibbsForSigmaSqY" (names (profRegr_proposals scenarioOptions scenarioData)).
Proof.
  split.
  - apply (proj1 (sampler_and_outcome_inclusion continuousOptions scenarioData)).
    cbn. discriminate.
  - apply (proj2 (sampler_and_outcome_inclusion scenarioOptions scenarioData)).
    reflexivity.
Defined.

Lemma covariateType_conditions (s : string) :
  (compare0 s "Discrete" || negb (compare0 s "Normal") && compare0 s "Mixed" = true
   <-> s = "Discrete" \/ s = "Mixed")
  /\ (negb (compare0 s "Discrete") && (compare0 s "Normal" || compare0 s "Mixed")
      = true
      <-> s = "Normal" \/ s = "Mixed").
Proof.
  unfold compare0.
  destruct (String.eqb_spec s "Discrete") as [HD|HD];
    destruct (String.eqb_spec s "Normal") as [HN|HN];
    destruct (String.eqb_spec s "Mixed") as [HM|HM];
    cbn [orb andb negb]; split; split; intros H;
    try reflexivity; try discriminate H; try tauto;
    try (rewrite HD in HN; discriminate HN);
    try (rewrite HD in HM; discriminate HM);
    try (rewrite HN in HM; discriminate HM);
    destruct H as [H|H]; contradiction.
Qed.

(** X6: the covariate block.  The two phi updates are registered exactly
    when covariateType is "Discrete" or "Mixed", the mu and tau updates
    (active and inactive) exactly when it is "Normal" or "Mixed". *)
Theorem covariate_block_inclusion (options : pReMiuMOptions) (dataset : pReMiuMData) :
  (forall n, In n ["updateForPhiActive"; "gibbsForPhiInActive"] ->
     (In n (names (profRegr_proposals options dataset))
      <-> covariateType options = "Discrete" \/ covariateType options = "Mixed"))
  /\ (forall n, In n ["gibbsForMuActive"; "gibbsForTauActive";
                      "gibbsForMuInActive"; "gibbsForTauInActive"] ->
     (In n (names (profRegr_proposals options dataset))
      <-> covariateType options = "Normal" \/ covariateType options = "Mixed")).
Proof.
  split; intros n Hn; rewrite hasName_In.
  - rewrite (registers_phi options dataset n Hn).
    apply (proj1 (covariateType_conditions (covariateType options))).
  - rewrite (registers_mu_tau options dataset n Hn).
    apply (proj2 (covariateType_conditions (covariateType options))).
Qed.

Lemma covariate_block_inclusion_witness :
  In "gibbsForPhiInActive" (names (profRegr_proposals maximalOptions scenarioData))
  /\ In "gibbsForTauActive" (names (profRegr_proposals scenarioOptions scenarioData)).
Proof.
  split.
  - apply (proj1 (covariate_block_inclusion maximalOptions scenarioData)
             "gibbsForPhiInActive").
    + right. left. reflexivity.
    + right. reflexivity.
  - apply (proj2 (covariate_block_inclusion scenarioOptions scenarioData)
             "gibbsForTauActive").
    + right. left. reflexivity.
    + left. reflexivity.
Defined.

(** Each pair of [mirrorPairs] is registered under one and the same
    condition. *)
Lemma mirror_same_condition (options : pReMiuMOptions) (dataset : pReMiuMData)
    (a i : string) :
  In (a, i) mirrorPairs ->
  hasName a (profRegr_proposals options dataset)
  = hasName i (profRegr_proposals options dataset).
Proof.
  unfold mirrorPairs.
  intros [H|[H|[H|[H|[H|[H|[]]]]]]]; injection H as Ha Hi; subst a i.
  - rewrite !registers_always; cbn; tauto.
  - rewrite !registers_phi; cbn; tauto.
  - rewrite !registers_mu_tau; cbn; tauto.
  - rewrite !registers_mu_tau; cbn; tauto.
  - rewrite registers_gammaActive, registers_gammaInActive. reflexivity.
  - rewrite !registers_theta; cbn; tauto.
Qed.

(** X7: the updates of the active and of the inactive components go
    together.  For each of the six pairs (V, phi, mu, tau, gamma, theta)
    the active update is registered if and only if the inactive one is,
    and then the active one comes first. *)
Theorem active_and_inactive_mirror (options : pReMiuMOptions)
    (dataset : pReMiuMData) (a i : string) :
  In (a, i) mirrorPairs ->
  (In a (names (profRegr_proposals options dataset))
   <-> In i (names (profRegr_proposals options dataset)))
  /\ (In a (names (profRegr_proposals options dataset)) ->
      before a i (names (profRegr_proposals options dataset))).
Proof.
  intros Hpair.
  assert (In a (names (profRegr_proposals options dataset))
          <-> In i (names (profRegr_proposals options dataset))) as Hiff.
  { rewrite !hasName_In, (mirror_same_condition options dataset a i Hpair).
    tauto. }
  split; [exact Hiff|]. intros Ha.
  assert (before a i canonicalOrder) as Hcanon.
  { apply beforeb_before. unfold mirrorPairs in Hpair.
    destruct Hpair as [H|[H|[H|[H|[H|[H|[]]]]]]]; injection H as Ea Ei;
      subst a i; vm_compute; reflexivity. }
  assert (a <> i) as Hne.
  { intros E. subst i.
    apply (before_asymmetric a a canonicalOrder canonicalOrder_NoDup Hcanon Hcanon). }
  destruct (before_total a i _ Ha (proj1 Hiff Ha) Hne) as [H|H]; [exact H|].
  exfalso.
  pose proof (Subseq_before _ _ i a
                (registered_names_canonical options dataset) H) as Hback.
  apply (before_asymmetric a i canonicalOrder canonicalOrder_NoDup Hcanon Hback).
Qed.

Lemma active_and_inactive_mirror_witness :
  before "gibbsForGammaActive" "gibbsForGammaInActive"
         (names (profRegr_proposals binaryOptions scenarioData)).
Proof.
  apply (proj2 (active_and_inactive_mirror binaryOptions scenarioData
                  "gibbsForGammaActive" "gibbsForGammaInActive"
                  (or_intror (or_intror (or_intror (or_intror
                     (or_introl eq_refl))))))).
  apply hasName_In. vm_compute. reflexivity.
Defined.

(** X8: deferral.  For an unsigned int burn-in every registered first
    sweep lies between 1 and 1 + floor(nBurn/10), which is at most
    429496730 and so never wraps; and every proposal is active from the
    first sweep on exactly when varSelectType is "None" or the burn-in is
    shorter than ten sweeps. *)
Theorem deferral_only_with_long_burn_in (options : pReMiuMOptions)
    (dataset : pReMiuMData) :
  UInt.inRange (nBurn options) ->
  Forall (fun p => 1 <= firstActiveSweep p <= 1 + nBurn options / 10
                   /\ firstActiveSweep p <= 429496730)
         (profRegr_proposals options dataset)
  /\ (Forall (fun p => firstActiveSweep p = 1)
             (profRegr_proposals options dataset)
      <-> varSelectType options = "None" \/ nBurn options < 10).
Proof.
  intros Hrange.
  pose proof (firstSweepOf_value options Hrange) as Hvalue.
  unfold UInt.inRange, UInt.modulus in Hrange.
  assert (0 <= nBurn options / 10 < 429496730) as Hq.
  { split; [apply Z.div_pos; lia | apply Z.div_lt_upper_bound; lia]. }
  split; [|split].
  - eapply Forall_impl; [|apply registered_shape].
    intros p (_ & _ & [[Hf _]|[Hf _]]); cbn beta; rewrite Hf; lia.
  - intros Hall.
    destruct (String.eqb_spec (varSelectType options) "None") as [E|E];
      [left; exact E|right].
    destruct (In_by_name "metropolisHastingsForRhoOmega"
                (profRegr_proposals options dataset)) as [p [Hp Hn]].
    { rewrite registers_rhoOmega. apply compare0_false in E. rewrite E.
      reflexivity. }
    rewrite Forall_forall in Hall. pose proof (Hall p Hp) as Hone.
    rewrite (deferred_firstSweep options dataset p Hp) in Hone
      by (rewrite Hn; cbn; tauto).
    rewrite Hvalue in Hone.
    assert (nBurn options / 10 = 0) as Hzero by lia.
    apply Z.div_small_iff in Hzero; lia.
  - intros Hcase.
    eapply Forall_impl; [|apply registered_shape].
    intros p (_ & _ & [[Hf _]|(Hf & _ & Hsel)]); cbn beta; [exact Hf|].
    destruct Hcase as [E|Hshort].
    + rewrite E in Hsel. discriminate Hsel.
    + rewrite Hf, Hvalue, Z.div_small by lia. reflexivity.
Qed.

Lemma deferral_only_with_long_burn_in_witness :
  Forall (fun p => firstActiveSweep p = 1)
         (profRegr_proposals shortBurnOptions scenarioData).
Proof.
  assert (UInt.inRange (nBurn shortBurnOptions)) as Hrange
    by (unfold UInt.inRange, UInt.modulus; cbn; lia).
  apply (proj2 (deferral_only_with_long_burn_in shortBurnOptions scenarioData
                  Hrange)).
  right. cbn. lia.
Defined.

(** X9: the proposals section reads nothing but covariateType,
    varSelectType, nBurn, includeResponse, samplerType, the sign test on
    fixedAlpha, responseExtraVar, outcomeType and whether there is a fixed
    effect.  Runs that agree on these register the same descriptors,
    whatever their seeds, sweep counts, thinning, file names, alpha
    values and data are. *)
Theorem composition_ignores_run_settings (o1 o2 : pReMiuMOptions)
    (d1 d2 : pReMiuMData) :
  sameComposition o1 o2 ->
  (0 <? nFixedEffects d1) = (0 <? nFixedEffects d2) ->
  profRegr_proposals o1 d1 = profRegr_proposals o2 d2.
Proof.
  intros (Hct & Hvs & Hburn & Hresp & Hst & Halpha & Hextra & Hout) Hfixed.
  unfold profRegr_proposals, firstSweepOf.
  rewrite Hct, Hvs, Hburn, Hresp, Hst, Halpha, Hextra, Hout, Hfixed.
  reflexivity.
Qed.

Lemma composition_ignores_run_settings_witness :
  profRegr_proposals binaryOptions scenarioData
  = profRegr_proposals binaryOptionsOtherRun otherData.
Proof.
  apply composition_ignores_run_settings.
  - unfold sameComposition. repeat split; reflexivity.
  - reflexivity.
Defined.

(** ** Further properties of the call sequence *)

(** The calls made are an initial part of the calls to make; every call
    that completed did not throw, and the run ends with the first call
    that does. *)
Lemma exec_trace (thr : list samplerCall -> samplerCall -> bool)
    (todo done : list samplerCall) :
  exists made rest,
    todo = made ++ rest
    /\ fst (exec thr done todo) = done ++ made
    /\ (snd (exec thr done todo) = Returned -> rest = [])
    /\ (forall c, snd (exec thr done todo) = Propagated c ->
          exists m, made = m ++ [c] /\ thr (done ++ m) c = true)
    /\ (forall m c later, made = m ++ c :: later ->
          later <> [] \/ snd (exec thr done todo) = Returned ->
          thr (done ++ m) c = false).
Proof.
  revert done. induction todo as [|c rest IH]; intros done.
  - exists [], []. cbn [exec fst snd app].
    split; [reflexivity|]. split; [rewrite app_nil_r; reflexivity|].
    split; [reflexivity|]. split.
    + intros c H. discriminate H.
    + intros m c later H. destruct m; discriminate H.
  - cbn [exec]. destruct (thr done c) eqn:Hthr.
    + exists [c], rest. cbn [fst snd].
      split; [reflexivity|]. split; [reflexivity|].
      split; [intros H; discriminate H|]. split.
      * intros c' H. injection H as H. subst c'.
        exists []. rewrite app_nil_r. split; [reflexivity|exact Hthr].
      * intros m c' later H [Hl|Hr]; [|discriminate Hr].
        destruct m as [|x m]; cbn [app] in H.
        -- injection H as _ H. subst later. contradiction.
        -- injection H as _ H. destruct m; discriminate H.
    + destruct (IH (done ++ [c])) as (made & rest' & Htodo & Hfst & Hret & Hprop & Hok).
      exists (c :: made), rest'. split; [rewrite Htodo; reflexivity|].
      split; [rewrite Hfst, <- app_assoc; reflexivity|].
      split; [exact Hret|]. split.
      * intros c' H. destruct (Hprop c' H) as [m [Hm Hc']].
        exists (c :: m). rewrite Hm. split; [reflexivity|].
        rewrite <- app_assoc in Hc'. exact Hc'.
      * intros m c' later H Hcase.
        destruct m as [|x m]; cbn [app] in H; injection H as Hx H.
        -- subst c'. rewrite app_nil_r. exact Hthr.
        -- subst x. specialize (Hok m c' later H Hcase).
           rewrite <- app_assoc in Hok. exact Hok.
Qed.

(** A run that has reached a call [x] has made every call before it. *)
Lemma prefix_reaches (A B t rest : list samplerCall) (x : samplerCall) :
  t ++ rest = A ++ x :: B -> In x t -> ~ In x A ->
  exists later, t = A ++ x :: later.
Proof.
  revert t. induction A as [|a A IH]; intros t Heq Hin Hnot.
  - destruct t as [|y t]; [contradiction|].
    cbn [app] in Heq. injection Heq as Hy _. subst y.
    exists t. reflexivity.
  - destruct t as [|y t]; [contradiction|].
    cbn [app] in Heq. injection Heq as Hy Heq. subst y.
    destruct Hin as [E|Hin]; [exfalso; apply Hnot; left; exact E|].
    destruct (IH t Heq Hin) as [later Hl].
    + intros H. apply Hnot. right. exact H.
    + exists later. rewrite Hl. reflexivity.
Qed.

Lemma Run_not_beforeRun (env : environment) (options : pReMiuMOptions) :
  ~ In Run (profRegr_beforeRun env options).
Proof.
  unfold profRegr_beforeRun, profRegr_addProposals.
  rewrite !in_app_iff.
  cbn [In profRegr_setup profRegr_readData profRegr_initialise].
  rewrite in_map_iff. intros H.
  repeat match type of H with
  | _ \/ _ => destruct H as [H|H]
  end; try discriminate H; try contradiction.
  destruct H as [p [Hp _]]. discriminate Hp.
Qed.

(** The calls made by [profRegr] are an initial part of its call sequence,
    and each call that was followed by another one, or by the return, did
    not throw. *)
Lemma profRegr_trace (env : environment) (options : pReMiuMOptions) :
  (exists rest,
     profRegr_calls env options = fst (profRegr env options) ++ rest)
  /\ (forall made c later,
        fst (profRegr env options) = made ++ c :: later ->
        later <> [] \/ snd (profRegr env options) = Returned ->
        throws env made c = false).
Proof.
  unfold profRegr.
  destruct (exec_trace (throws env) (profRegr_calls env options) [])
    as (made & rest & Hcalls & Hfst & _ & _ & Hok).
  cbn [app] in Hfst. rewrite Hfst.
  split; [exists rest; exact Hcalls | exact Hok].
Qed.

(** X11: run() is only called on a fully prepared sampler.  Whenever the
    run() call is made, every call that precedes it in profRegr has been
    made and has completed: the data are imported, all proposals of the
    configuration are registered, the output files are open and the chain
    is initialised. *)
Theorem run_only_after_preparation (env : environment) (options : pReMiuMOptions) :
  In Run (fst (profRegr env options)) ->
  (exists later,
     fst (profRegr env options) = profRegr_beforeRun env options ++ Run :: later)
  /\ registered (fst (profRegr env options))
     = profRegr_proposals options (imported env)
  /\ In (ImportData (inFileName options) (predictFileName options))
        (fst (profRegr env options))
  /\ In (InitialiseOutputFiles (outFileStem options)) (fst (profRegr env options))
  /\ In InitialiseChain (fst (profRegr env options))
  /\ (forall made c later,
        profRegr_beforeRun env options = made ++ c :: later ->
        throws env made c = false).
Proof.
  intros Hrun.
  destruct (profRegr_trace env options) as ([rest Hcalls] & Hok).
  set (t := fst (profRegr env options)) in *.
  assert (t ++ rest = profRegr_beforeRun env options
                      ++ Run :: [AppendToLogFile (currTime env - beginTime env);
                                 CloseOutputFiles]) as Heq.
  { rewrite <- Hcalls. reflexivity. }
  destruct (prefix_reaches _ _ t rest Run Heq Hrun (Run_not_beforeRun env options))
    as [later Ht].
  assert (registered later = []) as Hlater.
  { rewrite Ht, <- app_assoc in Heq. apply app_inv_head in Heq.
    cbn [app] in Heq. injection Heq as Heq.
    apply (f_equal registered) in Heq. rewrite registered_app in Heq.
    cbn [registered isAddProposal] in Heq.
    apply app_eq_nil in Heq. exact (proj1 Heq). }
  split; [exists later; exact Ht|].
  split; [|split; [|split; [|split]]].
  - rewrite Ht, registered_app. cbn [registered isAddProposal].
    rewrite Hlater, app_nil_r.
    unfold profRegr_beforeRun, profRegr_addProposals.
    rewrite !registered_app.
    cbn [registered profRegr_setup profRegr_readData profRegr_initialise
         isAddProposal app].
    rewrite registered_AddProposal, app_nil_r. reflexivity.
  - rewrite Ht. unfold profRegr_beforeRun. rewrite !in_app_iff.
    left. right. left. cbn. tauto.
  - rewrite Ht. unfold profRegr_beforeRun. rewrite !in_app_iff.
    left. right. right. right. cbn. tauto.
  - rewrite Ht. unfold profRegr_beforeRun. rewrite !in_app_iff.
    left. right. right. right. cbn. tauto.
  - intros made c after Hb.
    apply (Hok made c (after ++ Run :: later)).
    + rewrite Ht, Hb, <- app_assoc. reflexivity.
    + left. intros H. apply app_eq_nil in H. destruct H as [_ H].
      discriminate H.
Qed.

Lemma run_only_after_preparation_witness :
  registered (fst (profRegr (failingRunEnv scenarioData) scenarioOptions))
  = profRegr_proposals scenarioOptions scenarioData.
Proof.
  apply (proj1 (proj2 (run_only_after_preparation
                         (failingRunEnv scenarioData) scenarioOptions
                         ltac:(vm_compute; tauto)))).
Defined.

(** A run does not get past a call that throws in every situation. *)
Lemma exec_stops_at (thr : list samplerCall -> samplerCall -> bool)
    (x : samplerCall) (A B done : list samplerCall) :
  (forall h, thr h x = true) ->
  exists made skipped c,
    A ++ [x] = made ++ skipped
    /\ fst (exec thr done (A ++ x :: B)) = done ++ made
    /\ snd (exec thr done (A ++ x :: B)) = Propagated c.
Proof.
  intros Hx. revert done. induction A as [|a A IH]; intros done; cbn [app exec].
  - rewrite Hx. exists [x], [], x. repeat split.
  - destruct (thr done a).
    + exists [a], (A ++ [x]), a. repeat split.
    + destruct (IH (done ++ [a])) as (made & skipped & c & Hsplit & Hfst & Hsnd).
      exists (a :: made), skipped, c. cbn [app]. rewrite Hsplit, Hfst, Hsnd.
      rewrite <- app_assoc. repeat split.
Qed.

(** X12: when the data cannot be imported, nothing that follows happens.
    If importData throws, profRegr ends with an exception after at most
    13 calls; no proposal is registered, no output file is opened, and
    neither the chain initialisation nor run() is reached. *)
Theorem failed_import_stops_everything (env : environment)
    (options : pReMiuMOptions) :
  (forall h, throws env h
               (ImportData (inFileName options) (predictFileName options)) = true) ->
  (exists c, snd (profRegr env options) = Propagated c)
  /\ (List.length (fst (profRegr env options)) <= 13)%nat
  /\ registered (fst (profRegr env options)) = []
  /\ existsb isInitialise (fst (profRegr env options)) = false
  /\ ~ In InitialiseChain (fst (profRegr env options))
  /\ ~ In Run (fst (profRegr env options)).
Proof.
  intros Himport. unfold profRegr.
  destruct (exec_stops_at (throws env)
              (ImportData (inFileName options) (predictFileName options))
              (profRegr_setup options
               ++ [SetOutcomeType (outcomeType options);
                   SetCovariateType (covariateType options)])
              ((profRegr_addProposals options (imported env)
                ++ profRegr_initialise options)
               ++ [Run; AppendToLogFile (currTime env - beginTime env);
                   CloseOutputFiles])
              [] Himport)
    as (made & skipped & c & Hsplit & Hfst & Hsnd).
  change (exec (throws env) [] (profRegr_calls env options))
    with (exec (throws env) []
            ((profRegr_setup options
              ++ [SetOutcomeType (outcomeType options);
                  SetCovariateType (covariateType options)])
             ++ ImportData (inFileName options) (predictFileName options)
                :: (profRegr_addProposals options (imported env)
                    ++ profRegr_initialise options)
                   ++ [Run; AppendToLogFile (currTime env - beginTime env);
                       CloseOutputFiles])).
  rewrite Hfst, Hsnd. cbn [app].
  split; [exists c; reflexivity|].
  split; [|split; [|split; [|split]]].
  - apply (f_equal (@List.length samplerCall)) in Hsplit.
    rewrite !length_app in Hsplit. cbn in Hsplit. lia.
  - apply (f_equal registered) in Hsplit. rewrite !registered_app in Hsplit.
    cbn in Hsplit. symmetry in Hsplit. apply app_eq_nil in Hsplit.
    exact (proj1 Hsplit).
  - apply (f_equal (existsb isInitialise)) in Hsplit.
    rewrite !existsb_app in Hsplit. cbn in Hsplit.
    symmetry in Hsplit. apply orb_false_iff in Hsplit. exact (proj1 Hsplit).
  - intros Hin.
    assert (In InitialiseChain (made ++ skipped)) as H
      by (apply in_or_app; left; exact Hin).
    rewrite <- Hsplit in H. cbn in H.
    repeat (destruct H as [H|H]; [discriminate H|]). exact H.
  - intros Hin.
    assert (In Run (made ++ skipped)) as H
      by (apply in_or_app; left; exact Hin).
    rewrite <- Hsplit in H. cbn in H.
    repeat (destruct H as [H|H]; [discriminate H|]). exact H.
Qed.

Lemma failed_import_stops_everything_witness :
  registered (fst (profRegr (failingImportEnv scenarioData) scenarioOptions)) = []
  /\ existsb isInitialise
       (fst (profRegr (failingImportEnv scenarioData) scenarioOptions)) = false.
Proof.
  destruct (failed_import_stops_everything (failingImportEnv scenarioData)
              scenarioOptions (fun h => eq_refl)) as (_ & _ & Hreg & Hinit & _).
  split; [exact Hreg|exact Hinit].
Defined.

Lemma opens_app (l k : list samplerCall) :
  opens (l ++ k) = (opens l + opens k)%nat.
Proof. unfold opens. rewrite filter_app. apply length_app. Qed.

Lemma opens_AddProposal (l : list mcmcProposal) :
  opens (map AddProposal l) = 0%nat.
Proof. induction l as [|p l IH]; [reflexivity|exact IH]. Qed.

Lemma opens_profRegr_calls (env : environment) (options : pReMiuMOptions) :
  opens (profRegr_calls env options) = 1%nat.
Proof.
  unfold profRegr_calls, profRegr_beforeRun, profRegr_addProposals.
  change (SetProposalParams ?a ?b ?c ?d :: ?l)
    with ([SetProposalParams a b c d] ++ l).
  rewrite !opens_app, opens_AddProposal. reflexivity.
Qed.

Lemma closes_zero_not_In (l : list samplerCall) :
  closes l = 0%nat -> ~ In CloseOutputFiles l.
Proof.
  induction l as [|c l IH]; intros Hzero Hin; [exact Hin|].
  unfold closes in Hzero, IH. cbn [filter] in Hzero.
  destruct Hin as [E|Hin].
  - subst c. discriminate Hzero.
  - destruct (isClose c); [discriminate Hzero|]. exact (IH Hzero Hin).
Qed.

(** X13: the output files are handled in order.  In every environment
    initialiseOutputFiles is called at most once; and when
    closeOutputFiles is called, every other call of profRegr has been made
    and has completed before it: the files were opened, run() has
    finished and the final log entry is written. *)
Theorem output_files_protocol (env : environment) (options : pReMiuMOptions) :
  (opens (fst (profRegr env options)) <= 1)%nat
  /\ (In CloseOutputFiles (fst (profRegr env options)) ->
      fst (profRegr env options) = profRegr_calls env options
      /\ opens (fst (profRegr env options)) = 1%nat
      /\ In Run (fst (profRegr env options))
      /\ (forall made c later,
            profRegr_calls env options = made ++ c :: later ->
            later <> [] -> throws env made c = false)).
Proof.
  destruct (profRegr_trace env options) as ([rest Hcalls] & Hok).
  pose proof (opens_profRegr_calls env options) as Hone.
  split.
  - rewrite Hcalls, opens_app in Hone. lia.
  - intros Hclose.
    destruct (profRegr_calls_close env options) as (body & Hbody & Hzero & _).
    assert (fst (profRegr env options) = profRegr_calls env options) as Hall.
    { assert (fst (profRegr env options) ++ rest = body ++ CloseOutputFiles :: [])
        as Heq by (rewrite <- Hcalls; exact Hbody).
      destruct (prefix_reaches _ _ _ rest CloseOutputFiles Heq Hclose
                  (closes_zero_not_In body Hzero)) as [later Ht].
      rewrite Ht, <- app_assoc in Heq. apply app_inv_head in Heq.
      cbn [app] in Heq. injection Heq as Heq.
      apply app_eq_nil in Heq. destruct Heq as [Hl _].
      rewrite Ht, Hl, Hbody. reflexivity. }
    split; [exact Hall|]. split; [rewrite Hall; exact Hone|]. split.
    + rewrite Hall. unfold profRegr_calls. apply in_or_app. right. left.
      reflexivity.
    + intros made c later Hsplit Hlater.
      apply (Hok made c later); [rewrite Hall; exact Hsplit | left; exact Hlater].
Qed.

Lemma output_files_protocol_witness :
  opens (fst (profRegr (quietEnv scenarioData) scenarioOptions)) = 1%nat.
Proof.
  apply (proj2 (output_files_protocol (quietEnv scenarioData) scenarioOptions)).
  vm_compute. tauto.
Defined.
